(** * target-riscv/translate.c: the translation-block builder

    A shallow embedding of [src/target-riscv/translate.c] and the properties
    of its decode loop, block-exit logic, CPU-model lookup and state
    restoration.

    Conventions.
    - [target_ulong] values are [Z] in [0, 2^TARGET_LONG_BITS); every
      addition and subtraction on them is followed by its reduction
      modulo [2^TARGET_LONG_BITS].
    - C [int] truth values are [Z]; "true" is "not zero".
    - The TCG operation stream is an append-only list of [tcg_op]; the
      generator functions run in a small state monad [Gen] over that stream.
    - Constants and helpers that live in QEMU headers outside the file
      ([TARGET_PAGE_BITS], [CF_COUNT_MASK], [tcg_op_buf_full], ...) are
      section variables: the results hold for every value of them that
      satisfies the stated side conditions. *)

From Stdlib Require Import ZArith List String Ascii Bool Lia.
Import ListNotations.
Local Open Scope Z_scope.

(** ** The TCG operation stream *)

(** The TCG globals that [riscv_tcg_init] binds to fields of
    [CPURISCVState]. *)
Inductive TCGv : Type :=
| cpu_gpr (i : Z)
| cpu_fpr (i : Z)
| cpu_PC
| load_res.

(** Operations appended by the generator calls of the file.
    [op_exit_tb None] is [tcg_gen_exit_tb(0)], the return to the
    dispatcher; [op_exit_tb (Some n)] is [tcg_gen_exit_tb(tb + n)], the exit
    through chaining slot [n].  The [gen_tb_start], [gen_tb_end],
    [gen_io_start] and [gen_io_end] sequences of exec/gen-icount.h are kept
    as single markers. *)
Inductive tcg_op : Type :=
| op_insn_start (pc : Z)
| op_movi_tl (dst : TCGv) (v : Z)
| op_goto_tb (n : Z)
| op_exit_tb (link : option Z)
| op_raise_exception (excp : Z)
| op_raise_exception_mbadaddr (excp : Z) (badaddr : TCGv)
| op_raise_exception_debug
| op_io_start
| op_io_end
| op_tb_start
| op_tb_end (num_insns : Z).

Definition is_goto_tb (o : tcg_op) : bool :=
  match o with op_goto_tb _ => true | _ => false end.

Definition is_chained_exit (o : tcg_op) : bool :=
  match o with
  | op_goto_tb _ => true
  | op_exit_tb (Some _) => true
  | _ => false
  end.

(** State threaded through code generation: the operation buffer and, for
    the statements about fetches, the guest addresses that [cpu_ldl_code]
    was asked for, oldest first. *)
Record GenState : Type := mkGenState {
  op_buf : list tcg_op;
  code_loads : list Z
}.

Definition Gen (A : Type) : Type := GenState -> A * GenState.

Definition ret {A} (a : A) : Gen A := fun s => (a, s).

Definition bind {A B} (m : Gen A) (k : A -> Gen B) : Gen B :=
  fun s => let (a, s') := m s in k a s'.

Notation "x <- m ;; k" := (bind m (fun x => k))
  (at level 61, m at next level, right associativity).
Notation "m ;; k" := (bind m (fun _ => k))
  (at level 61, right associativity).

Definition emit (o : tcg_op) : Gen unit :=
  fun s => (tt, mkGenState (op_buf s ++ [o]) (code_loads s)).

Definition when (b : bool) (m : Gen unit) : Gen unit :=
  if b then m else ret tt.

Definition get_ops : Gen (list tcg_op) := fun s => (op_buf s, s).

Definition tcg_gen_insn_start (pc : Z) : Gen unit := emit (op_insn_start pc).
Definition tcg_gen_movi_tl (dst : TCGv) (v : Z) : Gen unit := emit (op_movi_tl dst v).
Definition tcg_gen_goto_tb (n : Z) : Gen unit := emit (op_goto_tb n).
Definition tcg_gen_exit_tb (link : option Z) : Gen unit := emit (op_exit_tb link).
Definition gen_helper_raise_exception (excp : Z) : Gen unit :=
  emit (op_raise_exception excp).
Definition gen_helper_raise_exception_mbadaddr (excp : Z) (a : TCGv) : Gen unit :=
  emit (op_raise_exception_mbadaddr excp a).
Definition gen_helper_raise_exception_debug : Gen unit :=
  emit op_raise_exception_debug.
Definition gen_io_start : Gen unit := emit op_io_start.
Definition gen_io_end : Gen unit := emit op_io_end.
Definition gen_tb_start : Gen unit := emit op_tb_start.
Definition gen_tb_end (num_insns : Z) : Gen unit := emit (op_tb_end num_insns).

(** ** Data model *)

(** [enum { BS_NONE, BS_STOP, BS_BRANCH }]; [DisasContext.bstate] is an
    [int]. *)
Definition BS_NONE : Z := 0.
Definition BS_STOP : Z := 1.
Definition BS_BRANCH : Z := 2.

(** The fields of [TranslationBlock] that the file reads or writes.  The
    structure is declared outside the file; [tb_size] holds the
    [target_ulong] difference [ctx.pc - pc_start] as computed, which is at
    most one page plus three bytes, and [tb_icount] holds [num_insns]. *)
Record TranslationBlock : Type := mkTB {
  tb_pc : Z;
  tb_cflags : Z;
  tb_size : Z;
  tb_icount : Z
}.

(** [typedef struct DisasContext].  [ctx_tb] stands for the pointer [tb]:
    only [tb->pc] is read through it, and that field is not written during
    a build.  [ctx_opcode] is not initialised before the first load; it
    starts as 0 here and is never read. *)
Record DisasContext : Type := mkCtx {
  ctx_tb : TranslationBlock;
  ctx_pc : Z;
  ctx_opcode : Z;
  ctx_singlestep_enabled : Z;
  ctx_mem_idx : Z;
  ctx_bstate : Z
}.

Definition set_pc (ctx : DisasContext) (v : Z) : DisasContext :=
  mkCtx (ctx_tb ctx) v (ctx_opcode ctx) (ctx_singlestep_enabled ctx)
        (ctx_mem_idx ctx) (ctx_bstate ctx).

Definition set_opcode (ctx : DisasContext) (v : Z) : DisasContext :=
  mkCtx (ctx_tb ctx) (ctx_pc ctx) v (ctx_singlestep_enabled ctx)
        (ctx_mem_idx ctx) (ctx_bstate ctx).

Definition set_bstate (ctx : DisasContext) (v : Z) : DisasContext :=
  mkCtx (ctx_tb ctx) (ctx_pc ctx) (ctx_opcode ctx) (ctx_singlestep_enabled ctx)
        (ctx_mem_idx ctx) v.

(** The fields of the generic [CPUState] that the file reads: the per-CPU
    single-step flag and the breakpoint list walked by
    [cpu_breakpoint_test]. *)
Record CPUState : Type := mkCPUState {
  cs_singlestep_enabled : Z;
  cs_breakpoints : list Z
}.

(** [cpu_breakpoint_test(cs, pc, BP_ANY)]: some breakpoint of the list sits
    at [pc] (with [BP_ANY] every breakpoint kind matches). *)
Definition cpu_breakpoint_test (cs : CPUState) (pc : Z) : bool :=
  existsb (Z.eqb pc) (cs_breakpoints cs).

(** [struct riscv_def_t]. *)
Record riscv_def_t : Type := mk_riscv_def {
  def_name : string;
  init_misa_reg : Z
}.

Record float_status : Type := mk_float_status {
  default_nan_mode : Z
}.

(** The fields of [CPURISCVState] that the file names. *)
Record CPURISCVState : Type := mkEnv {
  gpr : list Z;
  fpr : list Z;
  PC : Z;
  env_load_res : Z;
  csr : list Z;
  priv : Z;
  cpu_model : option riscv_def_t;
  fp_status : float_status
}.

(** [RISCVCPU]: the generic CPU object with the architecture state embedded
    in it; [riscv_env_get_cpu (env)] is the enclosing record. *)
Record RISCVCPU : Type := mkCPU {
  parent_obj : CPUState;
  env : CPURISCVState
}.

(** ** TCG globals: [riscv_tcg_init] *)

Definition regnames : list string :=
  [ "zero"; "ra  "; "sp  "; "gp  "; "tp  "; "t0  "; "t1  "; "t2  ";
    "s0  "; "s1  "; "a0  "; "a1  "; "a2  "; "a3  "; "a4  "; "a5  ";
    "a6  "; "a7  "; "s2  "; "s3  "; "s4  "; "s5  "; "s6  "; "s7  ";
    "s8  "; "s9  "; "s10 "; "s11 "; "t3  "; "t4  "; "t5  "; "t6  " ]%string.

Definition fpr_regnames : list string :=
  [ "ft0"; "ft1"; "ft2"; "ft3"; "ft4"; "ft5"; "ft6"; "ft7";
    "fs0"; "fs1"; "fa0"; "fa1"; "fa2"; "fa3"; "fa4"; "fa5";
    "fa6"; "fa7"; "fs2"; "fs3"; "fs4"; "fs5"; "fs6"; "fs7";
    "fs8"; "fs9"; "fs10"; "fs11"; "ft8"; "ft9"; "ft10"; "ft11" ]%string.

(** [a[i] = v] on an array held as a list; an index outside the array is
    not written by any caller below and leaves the list as it is. *)
Fixpoint array_store {A} (a : list A) (i : nat) (v : A) : list A :=
  match a, i with
  | [], _ => []
  | _ :: r, O => v :: r
  | x :: r, S i' => x :: array_store r i' v
  end.

(** The field of [CPURISCVState] a TCG global is bound to: the
    [offsetof (CPURISCVState, ...)] argument of [tcg_global_mem_new]. *)
Inductive env_field : Type :=
| field_gpr (i : nat)
| field_fpr (i : nat)
| field_PC
| field_load_res.

(** A TCG global created by [tcg_global_mem_new (cpu_env, offset, name)]. *)
Record tcg_global : Type := mk_tcg_global {
  glob_field : env_field;
  glob_name : string
}.

(** The file-level statics of translate.c.  An entry [None] is a handle
    that names no TCG value ([TCGV_UNUSED], or not yet created). *)
Record tcg_statics : Type := mk_tcg_statics {
  st_inited : Z;
  st_cpu_env : bool;
  st_cpu_gpr : list (option tcg_global);
  st_cpu_fpr : list (option tcg_global);
  st_cpu_PC : option tcg_global;
  st_load_res : option tcg_global
}.

(** The statics before the first call. *)
Definition tcg_statics_init : tcg_statics :=
  mk_tcg_statics 0 false (repeat None 32) (repeat None 32) None None.

Definition riscv_tcg_init (st : tcg_statics) : tcg_statics :=
  (* Initialize various static tables. *)
  if negb (st_inited st =? 0) then st
  else
    (* WARNING: cpu_gpr[0] is not allocated ON PURPOSE. Do not use it. *)
    let gprs := array_store (st_cpu_gpr st) 0 None in
    let gprs :=
      fold_left (fun a i =>
                   array_store a i
                     (Some (mk_tcg_global (field_gpr i) (nth i regnames EmptyString))))
                (seq 1 31) gprs in
    let fprs :=
      fold_left (fun a i =>
                   array_store a i
                     (Some (mk_tcg_global (field_fpr i) (nth i fpr_regnames EmptyString))))
                (seq 0 32) (st_cpu_fpr st) in
    mk_tcg_statics 1 true gprs fprs
      (Some (mk_tcg_global field_PC "PC"))
      (Some (mk_tcg_global field_load_res "load_res")).

(** Every TCG global reachable through the statics. *)
Definition tcg_globals_of (st : tcg_statics) : list tcg_global :=
  let some_of := fun o : option tcg_global =>
                   match o with Some g => [g] | None => [] end in
  flat_map some_of (st_cpu_gpr st) ++ flat_map some_of (st_cpu_fpr st)
  ++ some_of (st_cpu_PC st) ++ some_of (st_load_res st).

(** The global is bound to the storage of general-purpose register 0. *)
Definition binds_gpr0 (g : tcg_global) : bool :=
  match glob_field g with
  | field_gpr O => true
  | _ => false
  end.

(** ** The register file *)

Definition set_gpr (e : CPURISCVState) (g : list Z) : CPURISCVState :=
  mkEnv g (fpr e) (PC e) (env_load_res e) (csr e) (priv e) (cpu_model e)
        (fp_status e).

(** Modelled from the spec: the register accessors of the CPU State Model.
    The file only names their generators, [gen_get_gpr] and [gen_set_gpr],
    in the comment of [riscv_tcg_init]; neither is defined in it.
    [readRegister (index)]: register 0 is hard-wired, "reads of it always
    observe zero regardless of what writes appear to target it"; the other
    registers are read from [env->gpr]. *)
Definition readRegister (e : CPURISCVState) (index : nat) : Z :=
  match index with
  | O => 0
  | _ => nth index (gpr e) 0
  end.

(** Modelled from the spec: [writeRegister (index, value)], a "no-op if
    index == 0". *)

Definition writeRegister (e : CPURISCVState) (index : nat) (value : Z)
  : CPURISCVState :=
  match index with
  | O => e
  | _ => set_gpr e (array_store (gpr e) index value)
  end.

(** A run of register writes, first to last. *)
Definition writeRegisters (e : CPURISCVState) (ws : list (nat * Z))
  : CPURISCVState :=
  fold_left (fun e w => writeRegister e (fst w) (snd w)) ws e.

(** The TCG global a handle of the file stands for: the entry of the
    static tables that [riscv_tcg_init] fills.  An index outside an array
    names no value. *)
Definition global_of (st : tcg_statics) (t : TCGv) : option tcg_global :=
  match t with
  | cpu_gpr i => if i <? 0 then None else nth (Z.to_nat i) (st_cpu_gpr st) None
  | cpu_fpr i => if i <? 0 then None else nth (Z.to_nat i) (st_cpu_fpr st) None
  | cpu_PC => st_cpu_PC st
  | load_res => st_load_res st
  end.

(** A store to the field of [CPURISCVState] a global is bound to. *)
Definition store_field (f : env_field) (v : Z) (e : CPURISCVState)
  : CPURISCVState :=
  match f with
  | field_gpr i => set_gpr e (array_store (gpr e) i v)
  | field_fpr i =>
      mkEnv (gpr e) (array_store (fpr e) i v) (PC e) (env_load_res e) (csr e)
            (priv e) (cpu_model e) (fp_status e)
  | field_PC =>
      mkEnv (gpr e) (fpr e) v (env_load_res e) (csr e) (priv e) (cpu_model e)
            (fp_status e)
  | field_load_res =>
      mkEnv (gpr e) (fpr e) (PC e) v (csr e) (priv e) (cpu_model e)
            (fp_status e)
  end.

(** Modelled from the spec: what running one operation of the stream does
    to the registers of the CPU state (the TCG back end that runs the
    operations is not in the file; the CPU state is "read and written by
    generated IR").  A [movi] to a TCG global stores the value in the field
    the global is bound to by [tcg_global_mem_new]; a destination handle
    that names no TCG value makes the operation impossible to run; the
    markers, the block exits and the exception-raising helper calls store
    to no register. *)
Definition exec_op (st : tcg_statics) (o : tcg_op) (e : CPURISCVState)
  : option CPURISCVState :=
  match o with
  | op_movi_tl dst v =>
      match global_of st dst with
      | Some g => Some (store_field (glob_field g) v e)
      | None => None
      end
  | _ => Some e
  end.

Fixpoint exec_ops (st : tcg_statics) (ops : list tcg_op) (e : CPURISCVState)
  : option CPURISCVState :=
  match ops with
  | [] => Some e
  | o :: r =>
      match exec_op st o e with
      | Some e1 => exec_ops st r e1
      | None => None
      end
  end.

(** Modelled from the spec: the generator of a register write with an
    immediate value, [writeRegister (index, value)] as generated code: no
    operation for register 0, a [movi] to [cpu_gpr[index]] otherwise. *)
Definition gen_set_gpr_imm (reg_num_dst : nat) (value : Z) : Gen unit :=
  match reg_num_dst with
  | O => ret tt
  | _ => tcg_gen_movi_tl (cpu_gpr (Z.of_nat reg_num_dst)) value
  end.

(** ** Formatted output *)

Definition newline : string := String "010"%char EmptyString.

Definition hex_digit (d : Z) : ascii :=
  nth (Z.to_nat d)
      ["0"; "1"; "2"; "3"; "4"; "5"; "6"; "7";
       "8"; "9"; "a"; "b"; "c"; "d"; "e"; "f"]%char "0"%char.

(** The lower-case hexadecimal numeral of [v mod 16 ^ digits] on exactly
    [digits] digits: what the conversions [%08x] and [%016lx] print for a
    value in the range of their type. *)
Fixpoint hex_fixed (digits : nat) (v : Z) : string :=
  match digits with
  | O => EmptyString
  | S n => (hex_fixed n (v / 16) ++ String (hex_digit (v mod 16)) EmptyString)%string
  end.

(** [%02d] for an index below 100. *)
Definition dec2 (i : nat) : string :=
  String (hex_digit (Z.of_nat (i / 10)))
         (String (hex_digit (Z.of_nat (i mod 10))) EmptyString).

(** Number of newline characters of a text. *)
Fixpoint count_newlines (s : string) : nat :=
  match s with
  | EmptyString => O
  | String c r => ((if Ascii.eqb c "010"%char then 1 else 0) + count_newlines r)%nat
  end.

(** The text written by a sequence of [cpu_fprintf] calls. *)
Definition written (calls : list string) : string :=
  fold_right append EmptyString calls.

Section Dump.

Variable TARGET_LONG_BITS : Z.
Variable CSR_MSTATUS : nat.
Variable CSR_MIP : nat.
Variable CSR_MIE : nat.

(** [TARGET_FMT_lx]: ["%08x"] on a 32-bit target, ["%016lx"] on a 64-bit
    one. *)
Definition TARGET_FMT_lx (v : Z) : string :=
  hex_fixed (Z.to_nat (TARGET_LONG_BITS / 4)) v.

(** Body of the first [for] loop of [riscv_cpu_dump_state] at index [i]:
    the text of its [cpu_fprintf] calls. *)
Definition dump_gpr (e : CPURISCVState) (i : nat) : list string :=
  (" " ++ nth i regnames EmptyString ++ " "
   ++ TARGET_FMT_lx (nth i (gpr e) 0))%string
  :: (if Nat.eqb (Nat.land i 3) 3 then [newline] else []).

(** Body of the second [for] loop at index [i]. *)
Definition dump_fpr (e : CPURISCVState) (i : nat) : list string :=
  (if Nat.eqb (Nat.land i 3) 0
   then [("FPR" ++ dec2 i ++ ":")%string] else [])
  ++ [(" " ++ nth i fpr_regnames EmptyString ++ " "
       ++ hex_fixed 16 (nth i (fpr e) 0))%string]
  ++ (if Nat.eqb (Nat.land i 3) 3 then [newline] else []).

(** One of the three lines for a control and status register. *)
Definition dump_csr (e : CPURISCVState) (name : string) (index : nat) : string :=
  (" " ++ name ++ " " ++ TARGET_FMT_lx (nth index (csr e) 0) ++ newline)%string.

(** [riscv_cpu_dump_state]: the text of each [cpu_fprintf] call, in
    order. *)
Definition riscv_cpu_dump_state (e : CPURISCVState) : list string :=
  [("pc=0x" ++ TARGET_FMT_lx (PC e) ++ newline)%string]
  ++ flat_map (dump_gpr e) (seq 0 32)
  ++ [dump_csr e "MSTATUS " CSR_MSTATUS;
      dump_csr e "MIP     " CSR_MIP;
      dump_csr e "MIE     " CSR_MIE]
  ++ flat_map (dump_fpr e) (seq 0 32).

End Dump.

(** ** CPU models *)

(** [tolower] in the C locale, on character codes. *)
Definition tolower (c : ascii) : Z :=
  let n := Z.of_N (N_of_ascii c) in
  if (65 <=? n) && (n <=? 90) then n + 32 else n.

(** [strcasecmp] of the C library on NUL-terminated strings: the end of the
    Rocq string, or a NUL character in it, ends the C string. *)
Fixpoint strcasecmp (s1 s2 : string) : Z :=
  match s1, s2 with
  | EmptyString, EmptyString => 0
  | EmptyString, String c2 _ => 0 - tolower c2
  | String c1 _, EmptyString => tolower c1 - 0
  | String c1 r1, String c2 r2 =>
      if tolower c1 =? tolower c2
      then if tolower c1 =? 0 then 0 else strcasecmp r1 r2
      else tolower c1 - tolower c2
  end.

(** The wording of the specification, "case-insensitive exact string
    match": the lower-cased character codes of a C string. *)
Fixpoint lower_c_string (s : string) : list Z :=
  match s with
  | EmptyString => []
  | String c r => if tolower c =? 0 then [] else tolower c :: lower_c_string r
  end.

Section Models.

Variable TARGET_LONG_BITS : Z.
Variable TARGET_RISCV64 : bool.

(** ['X' - 'A'] *)
Definition ext_bit (c : ascii) : Z :=
  Z.of_N (N_of_ascii c) - Z.of_N (N_of_ascii "A").

Definition MCPUID_RV64I : Z := Z.shiftl 2 (TARGET_LONG_BITS - 2).
Definition MCPUID_RV32I : Z := Z.shiftl 1 (TARGET_LONG_BITS - 2).
Definition MCPUID_SUPER : Z := Z.shiftl 1 (ext_bit "S").
Definition MCPUID_USER : Z := Z.shiftl 1 (ext_bit "U").
Definition MCPUID_I : Z := Z.shiftl 1 (ext_bit "I").
Definition MCPUID_M : Z := Z.shiftl 1 (ext_bit "M").
Definition MCPUID_A : Z := Z.shiftl 1 (ext_bit "A").
Definition MCPUID_F : Z := Z.shiftl 1 (ext_bit "F").
Definition MCPUID_D : Z := Z.shiftl 1 (ext_bit "D").

Definition lor_all (l : list Z) : Z := fold_left Z.lor l 0.

(** RISC-V CPU definitions; [init_misa_reg] is a [uint64_t]. *)
Definition riscv_defs : list riscv_def_t :=
  [ mk_riscv_def "riscv"
      ((if TARGET_RISCV64
        then (* RV64G *)
          lor_all [MCPUID_RV64I; MCPUID_SUPER; MCPUID_USER; MCPUID_I;
                   MCPUID_M; MCPUID_A; MCPUID_F; MCPUID_D]
        else (* RV32G *)
          lor_all [MCPUID_RV32I; MCPUID_SUPER; MCPUID_USER; MCPUID_I;
                   MCPUID_M; MCPUID_A; MCPUID_F; MCPUID_D])
       mod 2 ^ 64) ].

(** The [for] loop of [cpu_riscv_find_by_name] over the entries from
    index [i] on; the result carries the index of the entry found, which
    stands for the pointer [&riscv_defs[i]]. *)
Fixpoint find_by_name_from (name : string) (defs : list riscv_def_t) (i : nat)
  : option (nat * riscv_def_t) :=
  match defs with
  | [] => None
  | d :: rest =>
      if strcasecmp name (def_name d) =? 0 then Some (i, d)
      else find_by_name_from name rest (S i)
  end.

Definition cpu_riscv_find_by_name (name : string) : option (nat * riscv_def_t) :=
  find_by_name_from name riscv_defs 0%nat.

(** [riscv_cpu_list]: the text of each [cpu_fprintf] call, in order. *)
Definition riscv_cpu_list : list string :=
  map (fun d => ("RISCV '" ++ def_name d ++ "'" ++ newline)%string) riscv_defs.

(** Collaborators of [cpu_riscv_init]: the object made by
    [object_new (TYPE_RISCV_CPU)], the effect of setting the "realized"
    property, and two constants of cpu.h. *)
Variable object_new_RISCV_CPU : RISCVCPU.
Variable set_realized : RISCVCPU -> RISCVCPU.
Variable PRV_M : Z.
Variable CSR_MISA : nat.

Definition cpu_riscv_init (cpu_model_name : string) : option RISCVCPU :=
  match cpu_riscv_find_by_name cpu_model_name with
  | None => None
  | Some (_, def) =>
      let cpu := object_new_RISCV_CPU in
      let e := env cpu in
      (* env->cpu_model = def; *)
      let e := mkEnv (gpr e) (fpr e) (PC e) (env_load_res e) (csr e) (priv e)
                     (Some def) (fp_status e) in
      (* memset(env->csr, 0, 4096 * sizeof(target_ulong)); *)
      let e := mkEnv (gpr e) (fpr e) (PC e) (env_load_res e) (repeat 0 4096)
                     (priv e) (cpu_model e) (fp_status e) in
      (* env->priv = PRV_M; *)
      let e := mkEnv (gpr e) (fpr e) (PC e) (env_load_res e) (csr e) PRV_M
                     (cpu_model e) (fp_status e) in
      (* set mcpuid from def *)
      let e := mkEnv (gpr e) (fpr e) (PC e) (env_load_res e)
                     (array_store (csr e) CSR_MISA
                        (init_misa_reg def mod 2 ^ TARGET_LONG_BITS))
                     (priv e) (cpu_model e) (fp_status e) in
      let cpu := set_realized (mkCPU (parent_obj cpu) e) in
      (* fpu flags: set_default_nan_mode(1, &env->fp_status); *)
      let e := env cpu in
      let e := mkEnv (gpr e) (fpr e) (PC e) (env_load_res e) (csr e) (priv e)
                     (cpu_model e) (mk_float_status 1) in
      Some (mkCPU (parent_obj cpu) e)
  end.

End Models.

(** ** State restoration *)

(** [restore_state_to_opc (env, tb, data)]: [data] is the array of words
    recorded at [tcg_gen_insn_start]; reading [data[0]] needs at least one
    word, otherwise there is no result. *)
Definition restore_state_to_opc (e : CPURISCVState) (tb : TranslationBlock)
    (data : list Z) : option CPURISCVState :=
  match data with
  | [] => None
  | d0 :: _ =>
      Some (mkEnv (gpr e) (fpr e) d0 (env_load_res e) (csr e) (priv e)
                  (cpu_model e) (fp_status e))
  end.

(** ** A concrete target

    RV64 system emulation with 4 KiB pages and the constants of QEMU's
    headers ([CF_COUNT_MASK = 0x7fff], [CF_LAST_IO = 0x8000],
    [TCG_MAX_INSNS = 512]); guest memory filled with [addi x0, x0, 0];
    an operation buffer that is never full. *)
Definition rv64_env : CPURISCVState :=
  mkEnv (repeat 0 32) (repeat 0 32) 0 0 (repeat 0 4096) 3 None
        (mk_float_status 0).

Definition rv64_cpu (singlestep_enabled : Z) (breakpoints : list Z) : RISCVCPU :=
  mkCPU (mkCPUState singlestep_enabled breakpoints) rv64_env.

Definition nop_memory (e : CPURISCVState) (pc : Z) : Z := 19.

Definition buf_never_full (ops : list tcg_op) : bool := false.

Definition mmu_index_of_priv (e : CPURISCVState) (ifetch : bool) : Z := priv e.

Definition tb_at (pc cflags : Z) : TranslationBlock := mkTB pc cflags 0 0.

(** Static tables that have not been initialised but hold stale handles,
    one of them for register 0, and a CPU state whose storage of register
    0 holds 5. *)
Definition stale_statics : tcg_statics :=
  mk_tcg_statics 0 false
    (repeat (Some (mk_tcg_global (field_gpr 0) "zero")) 32)
    (repeat None 32) None None.

Definition rv64_env_gpr0_5 : CPURISCVState :=
  set_gpr rv64_env (5 :: repeat 0 31).

(** The part of a [DisasContext] that the loop and the exit logic look
    at: everything but the fetched [opcode] and the MMU index. *)
Definition ctx_control (ctx : DisasContext) : TranslationBlock * Z * Z * Z :=
  (ctx_tb ctx, ctx_pc ctx, ctx_singlestep_enabled ctx, ctx_bstate ctx).

(** ** The generator *)

Inductive stop_cause : Type :=
| Stop_cpu_singlestep      (* cs->singlestep_enabled *)
| Stop_next_page           (* ctx.pc >= next_page_start *)
| Stop_op_buf_full         (* tcg_op_buf_full() *)
| Stop_max_insns           (* num_insns >= max_insns *)
| Stop_global_singlestep.  (* the global singlestep *)

(** How one pass through the body of the [while] ends. *)
Inductive loop_step : Type :=
| Next_iteration
| Break (c : stop_cause)
| Goto_done_generating.

(** How the [while] statement is left. *)
Inductive loop_exit : Type :=
| Exit_condition
| Exit_break (c : stop_cause)
| Exit_goto_done_generating.

(** What a build leaves behind: the block descriptor with [size] and
    [icount] filled in, the final local [ctx] and [num_insns], and the
    generation state. *)
Record GenResult : Type := mkGenResult {
  res_tb : TranslationBlock;
  res_ctx : DisasContext;
  res_num_insns : Z;
  res_exit : loop_exit;
  res_state : GenState
}.

Section Translate.

(** Target and build configuration (QEMU headers outside the file). *)
Variable TARGET_LONG_BITS : Z.
Variable TARGET_PAGE_BITS : Z.
Variable CONFIG_USER_ONLY : bool.
Variable CF_COUNT_MASK : Z.
Variable CF_LAST_IO : Z.
Variable TCG_MAX_INSNS : Z.

(** Collaborators: the capacity test of the operation buffer, the global
    [singlestep] flag, the guest code loader and the MMU index. *)
Variable tcg_op_buf_full : list tcg_op -> bool.
Variable singlestep : Z.
Variable cpu_ldl_code : CPURISCVState -> Z -> Z.
Variable cpu_mmu_index : CPURISCVState -> bool -> Z.

(** Reduction of an arithmetic result to [target_ulong]. *)
Definition target_ulong (v : Z) : Z := v mod 2 ^ TARGET_LONG_BITS.

(** [#define TARGET_PAGE_SIZE (1 << TARGET_PAGE_BITS)] and
    [#define TARGET_PAGE_MASK ~(TARGET_PAGE_SIZE - 1)]. *)
Definition TARGET_PAGE_SIZE : Z := Z.shiftl 1 TARGET_PAGE_BITS.
Definition TARGET_PAGE_MASK : Z := Z.lnot (TARGET_PAGE_SIZE - 1).

(** [cpu_ldl_code (env, pc)]: a 32-bit load from guest code space. *)
Definition ldl_code (e : CPURISCVState) (pc : Z) : Gen Z :=
  fun s => (cpu_ldl_code e pc mod 2 ^ 32,
            mkGenState (op_buf s) (code_loads s ++ [pc])).

Definition generate_exception (ctx : DisasContext) (excp : Z) : Gen unit :=
  tcg_gen_movi_tl cpu_PC (ctx_pc ctx) ;;
  gen_helper_raise_exception excp.

Definition generate_exception_mbadaddr (ctx : DisasContext) (excp : Z) : Gen unit :=
  tcg_gen_movi_tl cpu_PC (ctx_pc ctx) ;;
  gen_helper_raise_exception_mbadaddr excp cpu_PC.

(** unknown instruction *)
Definition kill_unknown (ctx : DisasContext) (excp : Z) : Gen DisasContext :=
  generate_exception ctx excp ;;
  ret (set_bstate ctx BS_STOP).

Definition use_goto_tb (ctx : DisasContext) (dest : Z) : bool :=
  if negb (ctx_singlestep_enabled ctx =? 0) then false
  else if CONFIG_USER_ONLY then true
  else Z.land (tb_pc (ctx_tb ctx)) TARGET_PAGE_MASK =? Z.land dest TARGET_PAGE_MASK.

Definition gen_goto_tb (ctx : DisasContext) (n : Z) (dest : Z) : Gen unit :=
  if use_goto_tb ctx dest then
    (* chaining is only allowed when the jump is to the same page *)
    tcg_gen_goto_tb n ;;
    tcg_gen_movi_tl cpu_PC dest ;;
    tcg_gen_exit_tb (Some n)
  else
    tcg_gen_movi_tl cpu_PC dest ;;
    when (negb (ctx_singlestep_enabled ctx =? 0))
         gen_helper_raise_exception_debug ;;
    tcg_gen_exit_tb None.

(** [decode_opc] has an empty body in the file. *)
Definition decode_opc (e : CPURISCVState) (ctx : DisasContext) : Gen DisasContext :=
  ret ctx.

(** Lines 151-157: the instruction budget of the block. *)
Definition max_insns_of (tb : TranslationBlock) : Z :=
  let max_insns := Z.land (tb_cflags tb) CF_COUNT_MASK in
  let max_insns := if max_insns =? 0 then CF_COUNT_MASK else max_insns in
  if max_insns >? TCG_MAX_INSNS then TCG_MAX_INSNS else max_insns.

(** Line 139. *)
Definition next_page_start_of (pc_start : Z) : Z :=
  target_ulong (Z.land pc_start TARGET_PAGE_MASK + TARGET_PAGE_SIZE).

(** Lines 184-198: the chain of [if (...) break;] that closes the loop
    body, with the test that fired. *)
Definition loop_break (cs : CPUState) (ctx : DisasContext)
    (next_page_start num_insns max_insns : Z) (ops : list tcg_op)
  : option stop_cause :=
  if negb (cs_singlestep_enabled cs =? 0) then Some Stop_cpu_singlestep
  else if ctx_pc ctx >=? next_page_start then Some Stop_next_page
  else if tcg_op_buf_full ops then Some Stop_op_buf_full
  else if num_insns >=? max_insns then Some Stop_max_insns
  else if negb (singlestep =? 0) then Some Stop_global_singlestep
  else None.

(** Lines 161-198: one pass through the body of the [while]. *)
Definition loop_body (cpu : RISCVCPU) (tb : TranslationBlock)
    (next_page_start max_insns : Z) (ctx : DisasContext) (num_insns : Z)
  : Gen (loop_step * DisasContext * Z) :=
  let cs := parent_obj cpu in
  tcg_gen_insn_start (ctx_pc ctx) ;;
  let num_insns := num_insns + 1 in
  if cpu_breakpoint_test cs (ctx_pc ctx) then
    tcg_gen_movi_tl cpu_PC (ctx_pc ctx) ;;
    let ctx := set_bstate ctx BS_BRANCH in
    gen_helper_raise_exception_debug ;;
    (* The address covered by the breakpoint must be included in
       [tb->pc, tb->pc + tb->size) *)
    let ctx := set_pc ctx (target_ulong (ctx_pc ctx + 4)) in
    ret (Goto_done_generating, ctx, num_insns)
  else
    when ((num_insns =? max_insns)
          && negb (Z.land (tb_cflags tb) CF_LAST_IO =? 0)) gen_io_start ;;
    opcode <- ldl_code (env cpu) (ctx_pc ctx) ;;
    let ctx := set_opcode ctx opcode in
    ctx <- decode_opc (env cpu) ctx ;;
    let ctx := set_pc ctx (target_ulong (ctx_pc ctx + 4)) in
    ops <- get_ops ;;
    match loop_break cs ctx next_page_start num_insns max_insns ops with
    | Some c => ret (Break c, ctx, num_insns)
    | None => ret (Next_iteration, ctx, num_insns)
    end.

(** Lines 160-200: [while (ctx.bstate == BS_NONE) { ... }].  [fuel] bounds
    the number of passes; [None] means the bound was too small. *)
Fixpoint translate_loop (fuel : nat) (cpu : RISCVCPU) (tb : TranslationBlock)
    (next_page_start max_insns : Z) (ctx : DisasContext) (num_insns : Z)
    (s : GenState) : option (loop_exit * DisasContext * Z * GenState) :=
  if ctx_bstate ctx =? BS_NONE then
    match fuel with
    | O => None
    | S fuel' =>
      match loop_body cpu tb next_page_start max_insns ctx num_insns s with
      | (Next_iteration, ctx', num_insns', s') =>
          translate_loop fuel' cpu tb next_page_start max_insns ctx' num_insns' s'
      | (Break c, ctx', num_insns', s') =>
          Some (Exit_break c, ctx', num_insns', s')
      | (Goto_done_generating, ctx', num_insns', s') =>
          Some (Exit_goto_done_generating, ctx', num_insns', s')
      end
    end
  else Some (Exit_condition, ctx, num_insns, s).

(** Lines 204-222: the exit sequence chosen from the single-step flag and
    the state in which the loop was left. *)
Definition block_exit (cs : CPUState) (ctx : DisasContext) : Gen unit :=
  if negb (cs_singlestep_enabled cs =? 0) && negb (ctx_bstate ctx =? BS_BRANCH) then
    when (ctx_bstate ctx =? BS_NONE) (tcg_gen_movi_tl cpu_PC (ctx_pc ctx)) ;;
    gen_helper_raise_exception_debug
  else
    if ctx_bstate ctx =? BS_STOP then
      gen_goto_tb ctx 0 (ctx_pc ctx)
    else if ctx_bstate ctx =? BS_NONE then
      (* handle end of page - DO NOT CHAIN. See gen_goto_tb. *)
      tcg_gen_movi_tl cpu_PC (ctx_pc ctx) ;;
      tcg_gen_exit_tb None
    else
      (* BS_BRANCH: ops using BS_BRANCH generate own exit seq *)
      ret tt.

Definition empty_gen_state : GenState := mkGenState [] [].

(** [gen_intermediate_code (env, tb)], with the bound on loop passes made
    explicit.  [cpu] is [riscv_env_get_cpu (env)]; the operation buffer
    starts empty. *)
Definition gen_intermediate_code_fuel (fuel : nat) (cpu : RISCVCPU)
    (tb : TranslationBlock) : option GenResult :=
  let cs := parent_obj cpu in
  let pc_start := tb_pc tb in
  let next_page_start := next_page_start_of pc_start in
  let ctx := mkCtx tb pc_start 0 (cs_singlestep_enabled cs)
                   (cpu_mmu_index (env cpu) false) BS_NONE in
  let max_insns := max_insns_of tb in
  let s := snd (gen_tb_start empty_gen_state) in
  match translate_loop fuel cpu tb next_page_start max_insns ctx 0 s with
  | None => None
  | Some (ex, ctx, num_insns, s) =>
    let s :=
      match ex with
      | Exit_goto_done_generating => s
      | _ =>
        snd ((when (negb (Z.land (tb_cflags tb) CF_LAST_IO =? 0)) gen_io_end ;;
              block_exit cs ctx) s)
      end in
    (* done_generating: *)
    let s := snd (gen_tb_end num_insns s) in
    Some (mkGenResult
            (mkTB (tb_pc tb) (tb_cflags tb)
                  (target_ulong (ctx_pc ctx - pc_start)) num_insns)
            ctx num_insns ex s)
  end.

(** The loop is left after at most [max (1, max_insns)] passes, so this
    bound is enough (see [gen_intermediate_code_total]). *)
Definition gen_intermediate_code (cpu : RISCVCPU) (tb : TranslationBlock)
  : option GenResult :=
  gen_intermediate_code_fuel (S (Z.to_nat (max_insns_of tb))) cpu tb.


(** *** The wording of the specification, for comparison *)

(** Two addresses lie on the same guest page. *)
Definition same_guest_page (a b : Z) : Prop :=
  a / 2 ^ TARGET_PAGE_BITS = b / 2 ^ TARGET_PAGE_BITS.

(** First address of the guest page of [a], and the first address after
    that page (not reduced to [target_ulong]). *)
Definition page_base (a : Z) : Z :=
  2 ^ TARGET_PAGE_BITS * (a / 2 ^ TARGET_PAGE_BITS).
Definition page_end (a : Z) : Z := page_base a + 2 ^ TARGET_PAGE_BITS.

(** The termination predicates in the order the specification lists them,
    each with the cause it stands for. *)
Definition termination_predicates (cs : CPUState) (ctx : DisasContext)
    (next_page_start num_insns max_insns : Z) (ops : list tcg_op)
  : list (stop_cause * bool) :=
  [ (Stop_cpu_singlestep, negb (cs_singlestep_enabled cs =? 0));
    (Stop_next_page, next_page_start <=? ctx_pc ctx);
    (Stop_op_buf_full, tcg_op_buf_full ops);
    (Stop_max_insns, max_insns <=? num_insns);
    (Stop_global_singlestep, negb (singlestep =? 0)) ].

(** "First match wins". *)
Fixpoint first_match (l : list (stop_cause * bool)) : option stop_cause :=
  match l with
  | [] => None
  | (c, true) :: _ => Some c
  | (_, false) :: r => first_match r
  end.

(** The operations a build has appended contain a chained exit. *)
Definition has_chained_exit (ops : list tcg_op) : bool :=
  existsb is_chained_exit ops.

(** The operations contain a write to a general-purpose register. *)
Definition writes_gpr (o : tcg_op) : bool :=
  match o with
  | op_movi_tl (cpu_gpr _) _ => true
  | _ => false
  end.

(** The address lies on the guest page of [pc_start]. *)
Definition in_page_of (pc_start a : Z) : Prop :=
  page_base pc_start <= a < page_end pc_start.

(** What the [while] loop guarantees when it is entered at [(ctx, n, s)]
    and left at [(ctx', n', s')] through [ex]. *)
Definition loop_post (cs : CPUState) (pc_start max_insns : Z)
    (ctx : DisasContext) (n : Z) (s : GenState)
    (ex : loop_exit) (ctx' : DisasContext) (n' : Z) (s' : GenState) : Prop :=
  n < n' /\ n' <= Z.max (n + 1) max_insns /\
  in_page_of pc_start (ctx_pc ctx + 4 * (n' - n - 1)) /\
  ctx_pc ctx' = target_ulong (ctx_pc ctx + 4 * (n' - n)) /\
  ctx_tb ctx' = ctx_tb ctx /\
  ctx_singlestep_enabled ctx' = ctx_singlestep_enabled ctx /\
  ctx_mem_idx ctx' = ctx_mem_idx ctx /\
  (exists ops, op_buf s' = op_buf s ++ ops /\
               existsb is_chained_exit ops = false /\
               existsb writes_gpr ops = false) /\
  (exists loads, code_loads s' = code_loads s ++ loads /\
                 Forall (in_page_of pc_start) loads /\
                 Z.of_nat (List.length loads)
                 = match ex with
                   | Exit_goto_done_generating => n' - n - 1
                   | _ => n' - n
                   end) /\
  match ex with
  | Exit_condition => False
  | Exit_break c => ctx_bstate ctx' = BS_NONE
  | Exit_goto_done_generating =>
      ctx_bstate ctx' = BS_BRANCH /\
      cpu_breakpoint_test cs (ctx_pc ctx + 4 * (n' - n - 1)) = true
  end.

(** The local [ctx] and the generation state when the loop is entered. *)
Definition initial_ctx (cpu : RISCVCPU) (tb : TranslationBlock) : DisasContext :=
  mkCtx tb (tb_pc tb) 0 (cs_singlestep_enabled (parent_obj cpu))
        (cpu_mmu_index (env cpu) false) BS_NONE.

Definition initial_state : GenState := mkGenState [op_tb_start] [].

(** The operations lines 201-222 append after a [break]. *)
Definition break_exit_ops (cs : CPUState) (tb : TranslationBlock) (pc : Z)
  : list tcg_op :=
  (if negb (Z.land (tb_cflags tb) CF_LAST_IO =? 0) then [op_io_end] else [])
  ++ op_movi_tl cpu_PC pc
     :: (if negb (cs_singlestep_enabled cs =? 0)
         then [op_raise_exception_debug] else [op_exit_tb None]).

(** The PC value in force when the stream raises the debug exception: the
    last write to [cpu_PC] before the first [op_raise_exception_debug]. *)
Fixpoint debug_trap_target_from (last : option Z) (ops : list tcg_op)
  : option Z :=
  match ops with
  | [] => None
  | op_movi_tl cpu_PC v :: r => debug_trap_target_from (Some v) r
  | op_raise_exception_debug :: _ => last
  | _ :: r => debug_trap_target_from last r
  end.

Definition debug_trap_target (ops : list tcg_op) : option Z :=
  debug_trap_target_from None ops.

(** The operations that [count] passes without a breakpoint append, the
    first of them at [pc] with [n] instructions counted before it: the
    [insn_start] marker of each pass and, in the pass that reaches
    [max_insns] of a block flagged [CF_LAST_IO], the [gen_io_start]
    marker. *)
Fixpoint decoded_ops (tb : TranslationBlock) (max_insns pc n : Z) (count : nat)
  : list tcg_op :=
  match count with
  | O => []
  | S c =>
      op_insn_start pc
      :: (if (n + 1 =? max_insns)
             && negb (Z.land (tb_cflags tb) CF_LAST_IO =? 0)
          then [op_io_start] else [])
      ++ decoded_ops tb max_insns (pc + 4) (n + 1) c
  end.

(** [count] consecutive instruction addresses from [pc] on. *)
Fixpoint decoded_pcs (pc : Z) (count : nat) : list Z :=
  match count with
  | O => []
  | S c => pc :: decoded_pcs (pc + 4) c
  end.

(** The operations of the breakpoint path (lines 165-167) after the
    [insn_start] marker of its pass. *)
Definition breakpoint_ops (bp : Z) : list tcg_op :=
  [op_insn_start bp; op_movi_tl cpu_PC bp; op_raise_exception_debug].

(** The addresses recorded by the [insn_start] markers of a stream. *)
Fixpoint insn_start_pcs (ops : list tcg_op) : list Z :=
  match ops with
  | [] => []
  | op_insn_start pc :: r => pc :: insn_start_pcs r
  | _ :: r => insn_start_pcs r
  end.

Definition is_io_op (o : tcg_op) : bool :=
  match o with
  | op_io_start | op_io_end => true
  | _ => false
  end.

Definition is_pc_write (o : tcg_op) : bool :=
  match o with
  | op_movi_tl cpu_PC _ => true
  | _ => false
  end.

(** ** Properties of the generator *)

(** *** Page arithmetic *)

Lemma page_mask_land (a : Z) :
  0 <= TARGET_PAGE_BITS ->
  Z.land a TARGET_PAGE_MASK = page_base a.
Proof.
  intros Hk. unfold TARGET_PAGE_MASK, TARGET_PAGE_SIZE, page_base.
  rewrite Z.shiftl_1_l.
  replace (2 ^ TARGET_PAGE_BITS - 1) with (Z.ones TARGET_PAGE_BITS)
    by (rewrite Z.ones_equiv; lia).
  rewrite <- Z.ldiff_land, Z.ldiff_ones_r by assumption.
  rewrite Z.shiftr_div_pow2, Z.shiftl_mul_pow2 by assumption.
  lia.
Qed.

Lemma page_size_pow2 :
  0 <= TARGET_PAGE_BITS -> TARGET_PAGE_SIZE = 2 ^ TARGET_PAGE_BITS.
Proof. intros _. unfold TARGET_PAGE_SIZE. apply Z.shiftl_1_l. Qed.

Lemma same_page_mask (a b : Z) :
  0 <= TARGET_PAGE_BITS ->
  (Z.land a TARGET_PAGE_MASK = Z.land b TARGET_PAGE_MASK <-> same_guest_page a b).
Proof.
  intros Hk. rewrite !page_mask_land by assumption.
  unfold page_base, same_guest_page.
  assert (0 < 2 ^ TARGET_PAGE_BITS) by (apply Z.pow_pos_nonneg; lia).
  split; intros E; [nia | now rewrite E].
Qed.

Lemma page_base_bounds (a : Z) :
  0 <= TARGET_PAGE_BITS -> page_base a <= a < page_end a.
Proof.
  intros Hk. unfold page_end, page_base.
  assert (0 < 2 ^ TARGET_PAGE_BITS) by (apply Z.pow_pos_nonneg; lia).
  pose proof (Z.mod_pos_bound a _ H).
  pose proof (Z.div_mod a (2 ^ TARGET_PAGE_BITS)). lia.
Qed.

Lemma in_page_same_page (a b : Z) :
  0 <= TARGET_PAGE_BITS ->
  page_base a <= b < page_end a -> same_guest_page b a.
Proof.
  intros Hk. unfold page_end, page_base, same_guest_page.
  assert (0 < 2 ^ TARGET_PAGE_BITS) by (apply Z.pow_pos_nonneg; lia).
  intros Hb. symmetry.
  apply Z.div_unique with (r := b - 2 ^ TARGET_PAGE_BITS * (a / 2 ^ TARGET_PAGE_BITS)); lia.
Qed.

(** Side conditions on the target: a page holds at least one instruction
    and is smaller than the address space. *)
Definition target_ok : Prop := 2 <= TARGET_PAGE_BITS < TARGET_LONG_BITS.

Lemma long_pow_split :
  target_ok ->
  2 ^ TARGET_LONG_BITS
  = 2 ^ TARGET_PAGE_BITS * 2 ^ (TARGET_LONG_BITS - TARGET_PAGE_BITS).
Proof.
  intros [H1 H2]. rewrite <- Z.pow_add_r by lia. f_equal. lia.
Qed.

Lemma page_size_ge_4 : target_ok -> 4 <= 2 ^ TARGET_PAGE_BITS.
Proof.
  intros [H1 H2]. change 4 with (2 ^ 2).
  apply Z.pow_le_mono_r; lia.
Qed.

(** The page of an address ends inside the address space, and when it is
    not the last page a whole further page follows it. *)
Lemma page_end_le (a : Z) :
  target_ok -> 0 <= a < 2 ^ TARGET_LONG_BITS ->
  page_end a <= 2 ^ TARGET_LONG_BITS /\
  (page_end a < 2 ^ TARGET_LONG_BITS ->
   page_end a + 2 ^ TARGET_PAGE_BITS <= 2 ^ TARGET_LONG_BITS).
Proof.
  intros Hok Ha. pose proof (long_pow_split Hok) as HB.
  pose proof (page_size_ge_4 Hok) as HP.
  destruct Hok as [H1 H2].
  unfold page_end, page_base.
  set (P := 2 ^ TARGET_PAGE_BITS) in *.
  set (Q := 2 ^ (TARGET_LONG_BITS - TARGET_PAGE_BITS)) in *.
  assert (HQ : 0 < Q) by (apply Z.pow_pos_nonneg; lia).
  assert (Hq : 0 <= a / P < Q).
  { split; [apply Z.div_pos; lia|].
    apply Z.div_lt_upper_bound; lia. }
  rewrite HB. split; [nia|]. intros Hlt.
  assert (a / P + 1 < Q) by nia. nia.
Qed.

(** [next_page_start] is the end of the page, or 0 on the last page. *)
Lemma next_page_start_cases (a : Z) :
  target_ok -> 0 <= a < 2 ^ TARGET_LONG_BITS ->
  (page_end a < 2 ^ TARGET_LONG_BITS /\ next_page_start_of a = page_end a) \/
  (page_end a = 2 ^ TARGET_LONG_BITS /\ next_page_start_of a = 0).
Proof.
  intros Hok Ha. destruct (page_end_le a Hok Ha) as [Hle _].
  pose proof (page_base_bounds a ltac:(destruct Hok; lia)) as Hb.
  pose proof (page_size_ge_4 Hok) as HP.
  unfold next_page_start_of, target_ulong.
  rewrite page_mask_land, page_size_pow2 by (destruct Hok; lia).
  fold (page_end a).
  destruct (Z.eq_dec (page_end a) (2 ^ TARGET_LONG_BITS)) as [E|N].
  - right. split; [assumption|]. rewrite E. apply Z_mod_same_full.
  - left. split; [lia|]. apply Z.mod_small.
    unfold page_end in *. lia.
Qed.

(** Advancing by one instruction inside the page neither wraps nor leaves
    the page, as long as the page test of the loop does not fire. *)
Lemma advance_in_page (pc_start pc : Z) :
  target_ok -> 0 <= pc_start < 2 ^ TARGET_LONG_BITS ->
  page_base pc_start <= pc < page_end pc_start ->
  (target_ulong (pc + 4) >=? next_page_start_of pc_start) = false ->
  target_ulong (pc + 4) = pc + 4 /\
  page_base pc_start <= pc + 4 < page_end pc_start.
Proof.
  intros Hok Ha Hpc Hlt. rewrite Z.geb_leb in Hlt. apply Z.leb_gt in Hlt.
  destruct (page_end_le pc_start Hok Ha) as [Hle Hnext].
  pose proof (page_size_ge_4 Hok) as HP.
  assert (HB : 0 < 2 ^ TARGET_LONG_BITS) by lia.
  pose proof (page_base_bounds pc_start ltac:(destruct Hok; lia)) as Hb.
  assert (Hm : 0 <= target_ulong (pc + 4))
    by (unfold target_ulong; apply Z.mod_pos_bound; lia).
  destruct (next_page_start_cases pc_start Hok Ha) as [[Hin E]|[_ E]];
    rewrite E in Hlt; [|lia].
  specialize (Hnext Hin).
  assert (H0 : 0 <= page_base pc_start).
  { unfold page_base. apply Z.mul_nonneg_nonneg; [lia|].
    apply Z.div_pos; lia. }
  assert (Hs : target_ulong (pc + 4) = pc + 4).
  { unfold target_ulong. apply Z.mod_small.
    unfold page_end in *. lia. }
  rewrite Hs in *. lia.
Qed.

(** *** One pass through the loop body *)

Lemma loop_body_breakpoint cpu tb nps max_insns ctx n s :
  cpu_breakpoint_test (parent_obj cpu) (ctx_pc ctx) = true ->
  loop_body cpu tb nps max_insns ctx n s
  = ((Goto_done_generating,
      set_pc (set_bstate ctx BS_BRANCH) (target_ulong (ctx_pc ctx + 4)),
      n + 1),
     mkGenState (op_buf s ++ [op_insn_start (ctx_pc ctx);
                              op_movi_tl cpu_PC (ctx_pc ctx);
                              op_raise_exception_debug])
                (code_loads s)).
Proof.
  intros Hbp. unfold loop_body, bind. cbn. rewrite Hbp. cbn.
  now rewrite <- !app_assoc.
Qed.

Lemma loop_body_decode cpu tb nps max_insns ctx n s :
  cpu_breakpoint_test (parent_obj cpu) (ctx_pc ctx) = false ->
  let ctx' := set_pc (set_opcode ctx (cpu_ldl_code (env cpu) (ctx_pc ctx) mod 2 ^ 32))
                     (target_ulong (ctx_pc ctx + 4)) in
  let ops' := op_buf s ++ op_insn_start (ctx_pc ctx)
              :: (if (n + 1 =? max_insns)
                     && negb (Z.land (tb_cflags tb) CF_LAST_IO =? 0)
                  then [op_io_start] else []) in
  loop_body cpu tb nps max_insns ctx n s
  = ((match loop_break (parent_obj cpu) ctx' nps (n + 1) max_insns ops' with
      | Some c => Break c
      | None => Next_iteration
      end, ctx', n + 1),
     mkGenState ops' (code_loads s ++ [ctx_pc ctx])).
Proof.
  intros Hbp ctx' ops'. unfold loop_body, bind. cbn. rewrite Hbp.
  unfold when, ldl_code, decode_opc, get_ops, ret.
  subst ctx' ops'.
  destruct ((n + 1 =? max_insns) && negb (Z.land (tb_cflags tb) CF_LAST_IO =? 0));
    cbn; [rewrite <- app_assoc; cbn|];
    match goal with
    | |- context [loop_break ?a ?b ?c ?d ?e ?f] =>
        destruct (loop_break a b c d e f)
    end; reflexivity.
Qed.

Lemma loop_break_none cs ctx nps n max_insns ops :
  loop_break cs ctx nps n max_insns ops = None ->
  cs_singlestep_enabled cs = 0 /\ (ctx_pc ctx >=? nps) = false /\
  tcg_op_buf_full ops = false /\ n < max_insns /\ singlestep = 0.
Proof.
  unfold loop_break.
  destruct (cs_singlestep_enabled cs =? 0) eqn:E1; cbn; [|discriminate].
  destruct (ctx_pc ctx >=? nps) eqn:E2; [discriminate|].
  destruct (tcg_op_buf_full ops) eqn:E3; [discriminate|].
  destruct (n >=? max_insns) eqn:E4; [discriminate|].
  destruct (singlestep =? 0) eqn:E5; cbn; [|discriminate].
  intros _. rewrite Z.geb_leb in E4. apply Z.leb_gt in E4.
  apply Z.eqb_eq in E1, E5. auto.
Qed.

(** *** The loop *)

Lemma translate_loop_S fuel cpu tb nps max_insns ctx n s :
  translate_loop (S fuel) cpu tb nps max_insns ctx n s
  = if ctx_bstate ctx =? BS_NONE then
      match loop_body cpu tb nps max_insns ctx n s with
      | (Next_iteration, ctx', n', s') =>
          translate_loop fuel cpu tb nps max_insns ctx' n' s'
      | (Break c, ctx', n', s') => Some (Exit_break c, ctx', n', s')
      | (Goto_done_generating, ctx', n', s') =>
          Some (Exit_goto_done_generating, ctx', n', s')
      end
    else Some (Exit_condition, ctx, n, s).
Proof. reflexivity. Qed.

Lemma translate_loop_spec cpu tb max_insns fuel :
  target_ok -> 0 <= tb_pc tb < 2 ^ TARGET_LONG_BITS ->
  forall ctx n s ex ctx' n' s',
    ctx_bstate ctx = BS_NONE ->
    in_page_of (tb_pc tb) (ctx_pc ctx) ->
    translate_loop fuel cpu tb (next_page_start_of (tb_pc tb)) max_insns ctx n s
    = Some (ex, ctx', n', s') ->
    loop_post (parent_obj cpu) (tb_pc tb) max_insns ctx n s ex ctx' n' s'.
Proof.
  intros Hok Hpc. induction fuel as [|fuel IH];
    intros ctx n s ex ctx' n' s' Hbs Hin Hrun.
  { cbn in Hrun. rewrite Hbs in Hrun. discriminate. }
  rewrite translate_loop_S, Hbs in Hrun. cbn [Z.eqb BS_NONE] in Hrun.
  destruct (cpu_breakpoint_test (parent_obj cpu) (ctx_pc ctx)) eqn:Hbp.
  - (* breakpoint: goto done_generating *)
    rewrite loop_body_breakpoint in Hrun by assumption.
    injection Hrun as <- <- <- <-. unfold loop_post. cbn.
    replace (n + 1 - n - 1) with 0 by lia.
    replace (n + 1 - n) with 1 by lia.
    rewrite ?Z.mul_0_r, ?Z.add_0_r, ?Z.mul_1_r.
    split; [lia|]. split; [lia|]. split; [assumption|].
    do 4 (split; [reflexivity|]).
    split; [eexists; split; [reflexivity|]; split; reflexivity|].
    split; [|split; [reflexivity|assumption]].
    exists []. rewrite app_nil_r. split; [reflexivity|].
    split; [constructor|reflexivity].
  - rewrite loop_body_decode in Hrun by assumption. cbv zeta in Hrun.
    match type of Hrun with
    | context [loop_break ?a ?b ?c ?d ?e ?f] =>
        destruct (loop_break a b c d e f) as [c0|] eqn:Hbrk
    end.
    + (* one of the tests fired: break *)
      injection Hrun as <- <- <- <-. unfold loop_post. cbn.
      replace (n + 1 - n - 1) with 0 by lia.
      replace (n + 1 - n) with 1 by lia.
      rewrite ?Z.mul_0_r, ?Z.add_0_r, ?Z.mul_1_r.
      split; [lia|]. split; [lia|]. split; [assumption|].
      do 4 (split; [reflexivity|]).
      split; [|split; [|assumption]].
      * eexists. split; [reflexivity|].
        destruct ((n + 1 =? max_insns) && _); split; reflexivity.
      * exists [ctx_pc ctx]. split; [reflexivity|].
        split; [constructor; [assumption|constructor]|reflexivity].
    + (* next pass *)
      apply loop_break_none in Hbrk. cbn in Hbrk.
      destruct Hbrk as (_ & Hpage & _ & Hlt & _).
      destruct (advance_in_page (tb_pc tb) (ctx_pc ctx) Hok Hpc Hin Hpage)
        as [Hadv Hin'].
      apply IH in Hrun; [|assumption|cbn; rewrite Hadv; exact Hin'].
      unfold loop_post in *.
      cbn [ctx_pc ctx_tb ctx_singlestep_enabled ctx_mem_idx ctx_bstate
           set_pc set_opcode op_buf code_loads] in Hrun.
      rewrite Hadv in Hrun.
      destruct Hrun as (H1 & H2 & H3 & H4 & H5 & H6 & H7 & H8 & H9 & H10).
      replace (ctx_pc ctx + 4 + 4 * (n' - (n + 1) - 1))
        with (ctx_pc ctx + 4 * (n' - n - 1)) in * by lia.
      replace (ctx_pc ctx + 4 + 4 * (n' - (n + 1)))
        with (ctx_pc ctx + 4 * (n' - n)) in * by lia.
      split; [lia|]. split; [lia|]. split; [assumption|].
      split; [assumption|]. do 3 (split; [assumption|]).
      split; [|split; [|assumption]].
      * destruct H8 as (ops & E & G1 & G2). rewrite E. cbn.
        rewrite <- app_assoc. eexists. split; [reflexivity|].
        rewrite !existsb_app, G1, G2.
        destruct ((n + 1 =? max_insns) && _); split; reflexivity.
      * destruct H9 as (loads & E & F & L). rewrite E. cbn.
        rewrite <- app_assoc. eexists. split; [reflexivity|]. split.
        -- constructor; assumption.
        -- cbn [List.length app]. rewrite Nat2Z.inj_succ, L. destruct ex; lia.
Qed.

(** The loop is left once the bound on passes exceeds the remaining
    instruction budget. *)
Lemma translate_loop_total cpu tb nps max_insns fuel :
  forall ctx n s,
    (0 < fuel)%nat -> max_insns - n < Z.of_nat fuel ->
    exists r, translate_loop fuel cpu tb nps max_insns ctx n s = Some r.
Proof.
  induction fuel as [|fuel IH]; intros ctx n s Hpos Hfuel; [lia|].
  rewrite translate_loop_S. destruct (ctx_bstate ctx =? BS_NONE); [|eauto].
  destruct (cpu_breakpoint_test (parent_obj cpu) (ctx_pc ctx)) eqn:Hbp.
  - rewrite loop_body_breakpoint by assumption. eauto.
  - rewrite loop_body_decode by assumption. cbv zeta.
    match goal with
    | |- context [loop_break ?a ?b ?c ?d ?e ?f] =>
        destruct (loop_break a b c d e f) as [c0|] eqn:Hbrk
    end; [eauto|].
    apply loop_break_none in Hbrk. destruct Hbrk as (_ & _ & _ & Hlt & _).
    apply IH; lia.
Qed.

(** *** The exit sequences *)

(** Runs the emitters of a straight-line generator on the state. *)
Ltac run_gen :=
  unfold bind, when, ret, tcg_gen_insn_start, tcg_gen_movi_tl,
    tcg_gen_goto_tb, tcg_gen_exit_tb, gen_helper_raise_exception,
    gen_helper_raise_exception_mbadaddr, gen_helper_raise_exception_debug,
    gen_io_start, gen_io_end, gen_tb_start, gen_tb_end, emit;
  cbn [op_buf code_loads fst snd];
  rewrite <- ?app_assoc; cbn [app].

Lemma gen_goto_tb_run ctx n dest s :
  gen_goto_tb ctx n dest s
  = (tt, mkGenState
           (op_buf s ++
            (if use_goto_tb ctx dest
             then [op_goto_tb n; op_movi_tl cpu_PC dest; op_exit_tb (Some n)]
             else op_movi_tl cpu_PC dest
                  :: (if negb (ctx_singlestep_enabled ctx =? 0)
                      then [op_raise_exception_debug] else [])
                  ++ [op_exit_tb None]))
           (code_loads s)).
Proof.
  unfold gen_goto_tb. destruct (use_goto_tb ctx dest).
  - now run_gen.
  - destruct (negb (ctx_singlestep_enabled ctx =? 0)); now run_gen.
Qed.

Lemma block_exit_debug cs ctx s :
  cs_singlestep_enabled cs <> 0 -> ctx_bstate ctx <> BS_BRANCH ->
  block_exit cs ctx s
  = (tt, mkGenState
           (op_buf s ++
            (if ctx_bstate ctx =? BS_NONE
             then [op_movi_tl cpu_PC (ctx_pc ctx)] else [])
            ++ [op_raise_exception_debug])
           (code_loads s)).
Proof.
  intros Hss Hbs. unfold block_exit.
  apply Z.eqb_neq in Hss, Hbs. rewrite Hss, Hbs. cbn [negb andb].
  destruct (ctx_bstate ctx =? BS_NONE); now run_gen.
Qed.

Lemma block_exit_open cs ctx s :
  cs_singlestep_enabled cs = 0 -> ctx_bstate ctx = BS_NONE ->
  block_exit cs ctx s
  = (tt, mkGenState
           (op_buf s ++ [op_movi_tl cpu_PC (ctx_pc ctx); op_exit_tb None])
           (code_loads s)).
Proof.
  intros Hss Hbs. unfold block_exit. rewrite Hss, Hbs.
  cbn [Z.eqb BS_NONE BS_BRANCH BS_STOP negb andb]. now run_gen.
Qed.

Lemma block_exit_branch cs ctx s :
  ctx_bstate ctx = BS_BRANCH -> block_exit cs ctx s = (tt, s).
Proof.
  intros Hbs. unfold block_exit. rewrite Hbs.
  cbn [Z.eqb Pos.eqb BS_NONE BS_BRANCH BS_STOP negb].
  now rewrite andb_false_r.
Qed.

(** Outside the explicit stop state the exit sequence never chains and
    never touches a general-purpose register; it performs no code load. *)
Lemma block_exit_no_chain cs ctx s :
  ctx_bstate ctx <> BS_STOP \/ cs_singlestep_enabled cs <> 0 ->
  exists ops,
    block_exit cs ctx s = (tt, mkGenState (op_buf s ++ ops) (code_loads s)) /\
    existsb is_chained_exit ops = false /\ existsb writes_gpr ops = false.
Proof.
  intros H.
  destruct (Z.eq_dec (ctx_bstate ctx) BS_BRANCH) as [Eb|Nb].
  { rewrite block_exit_branch by assumption. exists [].
    rewrite app_nil_r. destruct s. auto. }
  destruct (Z.eq_dec (cs_singlestep_enabled cs) 0) as [Es|Ns].
  - destruct H as [H|H]; [|contradiction].
    unfold block_exit. rewrite Es. cbn [Z.eqb negb andb].
    apply Z.eqb_neq in H. rewrite H.
    destruct (ctx_bstate ctx =? BS_NONE).
    + eexists. run_gen. split; [reflexivity|]. auto.
    + exists []. rewrite app_nil_r. destruct s. auto.
  - rewrite block_exit_debug by assumption. eexists.
    split; [reflexivity|].
    destruct (ctx_bstate ctx =? BS_NONE); auto.
Qed.

(** After a [break] the state is still [BS_NONE]: the PC is written and
    the block returns through the debug trap or to the dispatcher. *)
Lemma block_exit_eq_break cs ctx :
  ctx_bstate ctx = BS_NONE ->
  block_exit cs ctx
  = (tcg_gen_movi_tl cpu_PC (ctx_pc ctx) ;;
     if negb (cs_singlestep_enabled cs =? 0)
     then gen_helper_raise_exception_debug
     else tcg_gen_exit_tb None).
Proof.
  intros Hbs. unfold block_exit. rewrite Hbs.
  cbn [Z.eqb BS_NONE BS_BRANCH BS_STOP negb andb].
  rewrite andb_true_r.
  destruct (negb (cs_singlestep_enabled cs =? 0)); reflexivity.
Qed.

(** *** The whole build *)

Lemma max_insns_of_pos tb :
  0 < CF_COUNT_MASK -> 0 < TCG_MAX_INSNS -> 1 <= max_insns_of tb.
Proof.
  intros Hc Ht. unfold max_insns_of.
  assert (0 <= Z.land (tb_cflags tb) CF_COUNT_MASK)
    by (apply Z.land_nonneg; right; lia).
  destruct (Z.land (tb_cflags tb) CF_COUNT_MASK =? 0) eqn:E.
  - destruct (CF_COUNT_MASK >? TCG_MAX_INSNS); lia.
  - apply Z.eqb_neq in E.
    destruct (Z.land (tb_cflags tb) CF_COUNT_MASK >? TCG_MAX_INSNS); lia.
Qed.

(** The block is at most one page and three bytes long, so the
    subtraction that sets [tb->size] does not wrap. *)
Lemma span_no_wrap pc_start last :
  target_ok -> 0 <= pc_start < 2 ^ TARGET_LONG_BITS ->
  pc_start <= last -> in_page_of pc_start last ->
  target_ulong (target_ulong (last + 4) - pc_start) = last + 4 - pc_start.
Proof.
  intros Hok Hpc Hle [Hlo Hhi].
  pose proof (long_pow_split Hok) as HB.
  pose proof (page_size_ge_4 Hok) as HP.
  pose proof (page_base_bounds pc_start ltac:(destruct Hok; lia)) as Hb.
  assert (2 <= 2 ^ (TARGET_LONG_BITS - TARGET_PAGE_BITS)).
  { change 2 with (2 ^ 1) at 1. apply Z.pow_le_mono_r; destruct Hok; lia. }
  unfold target_ulong. rewrite Zminus_mod_idemp_l.
  apply Z.mod_small. unfold page_end in *. nia.
Qed.

(** Every build returns, and its result is the loop result followed by
    the exit sequence and the [gen_tb_end] marker. *)
Lemma gen_intermediate_code_run cpu tb :
  target_ok -> 0 <= tb_pc tb < 2 ^ TARGET_LONG_BITS ->
  exists ex ctx' n' s' exit_ops,
    loop_post (parent_obj cpu) (tb_pc tb) (max_insns_of tb)
              (initial_ctx cpu tb) 0 initial_state ex ctx' n' s' /\
    exit_ops = match ex with
               | Exit_goto_done_generating => []
               | _ => break_exit_ops (parent_obj cpu) tb (ctx_pc ctx')
               end /\
    gen_intermediate_code cpu tb
    = Some (mkGenResult
              (mkTB (tb_pc tb) (tb_cflags tb)
                    (target_ulong (ctx_pc ctx' - tb_pc tb)) n')
              ctx' n' ex
              (mkGenState (op_buf s' ++ exit_ops ++ [op_tb_end n'])
                          (code_loads s'))).
Proof.
  intros Hok Hpc.
  destruct (translate_loop_total cpu tb (next_page_start_of (tb_pc tb))
              (max_insns_of tb) (S (Z.to_nat (max_insns_of tb)))
              (initial_ctx cpu tb) 0 initial_state) as [[[[ex ctx'] n'] s'] Hrun];
    [lia|lia|].
  assert (Hpost : loop_post (parent_obj cpu) (tb_pc tb) (max_insns_of tb)
                    (initial_ctx cpu tb) 0 initial_state ex ctx' n' s').
  { eapply translate_loop_spec; [exact Hok|exact Hpc|reflexivity| |exact Hrun].
    apply page_base_bounds. destruct Hok; lia. }
  exists ex, ctx', n', s'. eexists. split; [exact Hpost|]. split; [reflexivity|].
  unfold gen_intermediate_code, gen_intermediate_code_fuel.
  change (snd (gen_tb_start empty_gen_state)) with initial_state.
  fold (initial_ctx cpu tb). rewrite Hrun.
  destruct Hpost as (_ & _ & _ & _ & _ & _ & _ & _ & _ & Hex).
  destruct ex as [|c|]; [contradiction| |].
  - unfold break_exit_ops.
    rewrite (block_exit_eq_break (parent_obj cpu) ctx') by assumption.
    destruct (negb (Z.land (tb_cflags tb) CF_LAST_IO =? 0));
      destruct (negb (cs_singlestep_enabled (parent_obj cpu) =? 0));
      run_gen; reflexivity.
  - run_gen. reflexivity.
Qed.

Lemma loop_break_first_match cs ctx nps n max_insns ops :
  loop_break cs ctx nps n max_insns ops
  = first_match (termination_predicates cs ctx nps n max_insns ops).
Proof.
  unfold loop_break, termination_predicates. cbn [first_match].
  rewrite !Z.geb_leb.
  destruct (negb (cs_singlestep_enabled cs =? 0)); [reflexivity|].
  destruct (nps <=? ctx_pc ctx); [reflexivity|].
  destruct (tcg_op_buf_full ops); [reflexivity|].
  destruct (max_insns <=? n); [reflexivity|].
  destruct (negb (singlestep =? 0)); reflexivity.
Qed.

(** *** The claims about the builder *)

(** C1 (as amended).  With a breakpoint at the block's start address the
    build returns a block for which no instruction was fetched or decoded;
    the counter [num_insns] was already incremented, so [icount] is 1; the
    debug exception is raised with PC written to the breakpoint address
    [tb->pc] itself; [ctx.pc] is advanced by 4 afterwards, only so that
    [tb->size] is 4; the state is [BS_BRANCH] and no exit sequence is
    appended. *)
Theorem C1_breakpoint_at_block_start cpu tb :
  target_ok ->
  cpu_breakpoint_test (parent_obj cpu) (tb_pc tb) = true ->
  exists r,
    gen_intermediate_code cpu tb = Some r /\
    code_loads (res_state r) = [] /\
    tb_icount (res_tb r) = 1 /\
    tb_size (res_tb r) = 4 /\
    op_buf (res_state r)
    = [op_tb_start; op_insn_start (tb_pc tb); op_movi_tl cpu_PC (tb_pc tb);
       op_raise_exception_debug; op_tb_end 1] /\
    debug_trap_target (op_buf (res_state r)) = Some (tb_pc tb) /\
    ctx_pc (res_ctx r) = target_ulong (tb_pc tb + 4) /\
    ctx_bstate (res_ctx r) = BS_BRANCH.
Proof.
  intros Hok Hbp. eexists.
  unfold gen_intermediate_code, gen_intermediate_code_fuel.
  rewrite translate_loop_S. cbn [ctx_bstate Z.eqb BS_NONE].
  rewrite loop_body_breakpoint by exact Hbp.
  split; [reflexivity|]. cbn.
  repeat (split; [reflexivity|]).
  split; [|repeat split].
  unfold target_ulong. rewrite Zminus_mod_idemp_l.
  replace (tb_pc tb + 4 - tb_pc tb) with 4 by lia.
  apply Z.mod_small. split; [lia|].
  destruct Hok as [H1 H2]. change 4 with (2 ^ 2).
  apply Z.pow_lt_mono_r; lia.
Qed.

(** C2 (as amended).  [gen_goto_tb] emits the chained form exactly when
    single-stepping is disabled and, in a system-emulation build, the
    destination lies on the guest page of [tb->pc]; in a build with
    [CONFIG_USER_ONLY] the page is not looked at.  Otherwise it emits the
    PC write, the debug trap if single-stepping is enabled, and the return
    to the dispatcher. *)
Theorem C2_gen_goto_tb_forms ctx n dest s :
  0 <= TARGET_PAGE_BITS ->
  (use_goto_tb ctx dest = true <->
   ctx_singlestep_enabled ctx = 0 /\
   (CONFIG_USER_ONLY = true \/ same_guest_page (tb_pc (ctx_tb ctx)) dest)) /\
  (use_goto_tb ctx dest = true ->
   gen_goto_tb ctx n dest s
   = (tt, mkGenState
            (op_buf s ++ [op_goto_tb n; op_movi_tl cpu_PC dest;
                          op_exit_tb (Some n)])
            (code_loads s))) /\
  (use_goto_tb ctx dest = false ->
   gen_goto_tb ctx n dest s
   = (tt, mkGenState
            (op_buf s ++ op_movi_tl cpu_PC dest
             :: (if ctx_singlestep_enabled ctx =? 0 then []
                 else [op_raise_exception_debug])
             ++ [op_exit_tb None])
            (code_loads s))).
Proof.
  intros Hk. split; [|split].
  - unfold use_goto_tb.
    destruct (ctx_singlestep_enabled ctx =? 0) eqn:Ess; cbn [negb].
    + apply Z.eqb_eq in Ess. destruct CONFIG_USER_ONLY.
      * intuition.
      * rewrite Z.eqb_eq, same_page_mask by assumption.
        intuition discriminate.
    + apply Z.eqb_neq in Ess. intuition discriminate.
  - intros E. rewrite gen_goto_tb_run, E. reflexivity.
  - intros E. rewrite gen_goto_tb_run, E.
    destruct (ctx_singlestep_enabled ctx =? 0); reflexivity.
Qed.

(** C3.  For every build (in particular one that meets no breakpoint) the
    block satisfies [tb->size == 4 * tb->icount], and the final [ctx.pc] is
    [tb->pc + tb->size] in [target_ulong] arithmetic; there is no
    wrap-around unless the block lies on the last page of the address
    space. *)
Theorem C3_size_is_four_times_icount cpu tb :
  target_ok -> 0 <= tb_pc tb < 2 ^ TARGET_LONG_BITS ->
  exists r,
    gen_intermediate_code cpu tb = Some r /\
    tb_icount (res_tb r) = res_num_insns r /\
    tb_size (res_tb r) = 4 * tb_icount (res_tb r) /\
    ctx_pc (res_ctx r) = target_ulong (tb_pc tb + tb_size (res_tb r)) /\
    (page_end (tb_pc tb) < 2 ^ TARGET_LONG_BITS ->
     ctx_pc (res_ctx r) = tb_pc tb + tb_size (res_tb r)).
Proof.
  intros Hok Hpc.
  destruct (gen_intermediate_code_run cpu tb Hok Hpc)
    as (ex & ctx' & n' & s' & exit_ops & Hpost & _ & Hrun).
  eexists. split; [exact Hrun|]. cbn.
  destruct Hpost as (Hn & _ & Hlast & Hpc' & _).
  cbn [initial_ctx ctx_pc] in Hlast, Hpc'.
  assert (Hsz : target_ulong (ctx_pc ctx' - tb_pc tb) = 4 * n').
  { rewrite Hpc'. replace (tb_pc tb + 4 * (n' - 0))
      with (tb_pc tb + 4 * (n' - 0 - 1) + 4) by lia.
    rewrite span_no_wrap; [lia|assumption|assumption|lia|assumption]. }
  split; [reflexivity|]. split; [exact Hsz|]. rewrite Hsz.
  split; [rewrite Hpc'; f_equal; lia|].
  intros Hlt. rewrite Hpc'. unfold target_ulong. rewrite Z.mod_small; [lia|].
  destruct (page_end_le (tb_pc tb) Hok Hpc) as [_ Hnext].
  specialize (Hnext Hlt). pose proof (page_size_ge_4 Hok).
  destruct Hlast as [_ Hhi]. lia.
Qed.

(** C4.  For every build the final instruction count is at most
    [max_insns], and every address handed to [cpu_ldl_code] lies on the
    guest page of [tb->pc]: it is below the end of that page, which is
    [next_page_start] whenever that sum does not wrap to 0. *)
Theorem C4_budget_and_page_bound cpu tb :
  target_ok -> 0 <= tb_pc tb < 2 ^ TARGET_LONG_BITS ->
  0 < CF_COUNT_MASK -> 0 < TCG_MAX_INSNS ->
  exists r,
    gen_intermediate_code cpu tb = Some r /\
    tb_icount (res_tb r) <= max_insns_of tb /\
    Z.of_nat (List.length (code_loads (res_state r))) <= tb_icount (res_tb r) /\
    forall a, In a (code_loads (res_state r)) ->
      same_guest_page a (tb_pc tb) /\
      page_base (tb_pc tb) <= a < page_end (tb_pc tb) /\
      (page_end (tb_pc tb) < 2 ^ TARGET_LONG_BITS ->
       a < next_page_start_of (tb_pc tb)).
Proof.
  intros Hok Hpc Hcm Htm.
  destruct (gen_intermediate_code_run cpu tb Hok Hpc)
    as (ex & ctx' & n' & s' & exit_ops & Hpost & _ & Hrun).
  eexists. split; [exact Hrun|]. cbn.
  pose proof (max_insns_of_pos tb Hcm Htm) as Hmax.
  destruct Hpost as (Hn & Hle & _ & _ & _ & _ & _ & _ & Hloads & _).
  destruct Hloads as (loads & E & Hall & Hlen).
  cbn [initial_state code_loads app] in E. rewrite E.
  split; [lia|]. split; [destruct ex; lia|].
  intros a Ha. rewrite Forall_forall in Hall. specialize (Hall a Ha).
  split; [apply in_page_same_page; [destruct Hok; lia|exact Hall]|].
  split; [exact Hall|]. intros Hlt.
  destruct (next_page_start_cases (tb_pc tb) Hok Hpc) as [[_ En]|[En _]];
    [rewrite En; apply Hall|lia].
Qed.

(** The operation stream of a build never chains and never writes a
    general-purpose register: [decode_opc] is empty, so the loop is only
    left by a [break] or through the breakpoint path. *)
Lemma gen_intermediate_code_ops cpu tb :
  target_ok -> 0 <= tb_pc tb < 2 ^ TARGET_LONG_BITS ->
  exists r pre,
    gen_intermediate_code cpu tb = Some r /\
    has_chained_exit (op_buf (res_state r)) = false /\
    existsb writes_gpr (op_buf (res_state r)) = false /\
    op_buf (res_state r)
    = pre ++ match res_exit r with
             | Exit_goto_done_generating => []
             | _ => op_movi_tl cpu_PC (ctx_pc (res_ctx r))
                    :: (if negb (cs_singlestep_enabled (parent_obj cpu) =? 0)
                        then [op_raise_exception_debug]
                        else [op_exit_tb None])
             end ++ [op_tb_end (res_num_insns r)] /\
    match res_exit r with
    | Exit_condition => False
    | Exit_break _ => ctx_bstate (res_ctx r) = BS_NONE
    | Exit_goto_done_generating => ctx_bstate (res_ctx r) = BS_BRANCH
    end.
Proof.
  intros Hok Hpc.
  destruct (gen_intermediate_code_run cpu tb Hok Hpc)
    as (ex & ctx' & n' & s' & exit_ops & Hpost & Hexit & Hrun).
  destruct Hpost as (_ & _ & _ & _ & _ & _ & _ & Hops & _ & Hex).
  destruct Hops as (ops & E & G1 & G2).
  assert (Hsafe : existsb is_chained_exit exit_ops = false /\
                  existsb writes_gpr exit_ops = false).
  { subst exit_ops. unfold break_exit_ops.
    destruct ex; [contradiction| |auto].
    destruct (negb (Z.land (tb_cflags tb) CF_LAST_IO =? 0));
      destruct (negb (cs_singlestep_enabled (parent_obj cpu) =? 0)); auto. }
  destruct Hsafe as [S1 S2].
  eexists. exists (op_buf s' ++
                   match ex with
                   | Exit_goto_done_generating => []
                   | _ => if negb (Z.land (tb_cflags tb) CF_LAST_IO =? 0)
                          then [op_io_end] else []
                   end).
  split; [exact Hrun|]. cbn [res_state res_exit res_ctx res_num_insns op_buf].
  unfold has_chained_exit. rewrite E, !existsb_app, G1, G2, S1, S2.
  cbn [initial_state op_buf existsb is_chained_exit writes_gpr orb].
  split; [reflexivity|]. split; [reflexivity|]. split.
  - rewrite <- !app_assoc. do 2 f_equal. subst exit_ops.
    unfold break_exit_ops. destruct ex; [contradiction| |reflexivity].
    now rewrite <- app_assoc.
  - destruct ex; [contradiction|exact Hex|apply Hex].
Qed.

(** C5.  In debug mode ([cs->singlestep_enabled] set) and outside
    [BS_BRANCH], the exit logic writes [ctx.pc] to the PC when the state is
    [BS_NONE] and then raises the debug exception; in debug mode neither
    the exit logic nor a whole build emits a chained exit. *)
Theorem C5_debug_mode_exit cpu tb ctx s :
  target_ok -> 0 <= tb_pc tb < 2 ^ TARGET_LONG_BITS ->
  cs_singlestep_enabled (parent_obj cpu) <> 0 ->
  (ctx_bstate ctx <> BS_BRANCH ->
   block_exit (parent_obj cpu) ctx s
   = (tt, mkGenState
            (op_buf s ++
             (if ctx_bstate ctx =? BS_NONE
              then [op_movi_tl cpu_PC (ctx_pc ctx)] else [])
             ++ [op_raise_exception_debug])
            (code_loads s))) /\
  (exists ops,
     block_exit (parent_obj cpu) ctx s
     = (tt, mkGenState (op_buf s ++ ops) (code_loads s)) /\
     has_chained_exit ops = false) /\
  (exists r pre,
     gen_intermediate_code cpu tb = Some r /\
     has_chained_exit (op_buf (res_state r)) = false /\
     (res_exit r <> Exit_goto_done_generating ->
      ctx_bstate (res_ctx r) = BS_NONE /\
      op_buf (res_state r)
      = pre ++ [op_movi_tl cpu_PC (ctx_pc (res_ctx r));
                op_raise_exception_debug;
                op_tb_end (res_num_insns r)])).
Proof.
  intros Hok Hpc Hss. split; [|split].
  - intros Hbs. now apply block_exit_debug.
  - destruct (block_exit_no_chain (parent_obj cpu) ctx s (or_intror Hss))
      as (ops & E & G & _).
    exists ops. split; assumption.
  - destruct (gen_intermediate_code_ops cpu tb Hok Hpc)
      as (r & pre & Hrun & Hch & _ & Hops & Hex).
    exists r, pre. split; [exact Hrun|]. split; [exact Hch|].
    intros Hne. apply Z.eqb_neq in Hss. rewrite Hss in Hops.
    destruct (res_exit r); [contradiction| |congruence].
    split; [exact Hex|exact Hops].
Qed.

(** C6.  With debug mode off and the loop left by a [break] (state still
    [BS_NONE]), the exit logic writes [ctx.pc] to the PC and returns to the
    dispatcher with [tcg_gen_exit_tb (0)]; no chained exit is emitted. *)
Theorem C6_open_timeout_exit cpu tb ctx s :
  target_ok -> 0 <= tb_pc tb < 2 ^ TARGET_LONG_BITS ->
  cs_singlestep_enabled (parent_obj cpu) = 0 ->
  (ctx_bstate ctx = BS_NONE ->
   block_exit (parent_obj cpu) ctx s
   = (tt, mkGenState
            (op_buf s ++ [op_movi_tl cpu_PC (ctx_pc ctx); op_exit_tb None])
            (code_loads s))) /\
  (exists r pre,
     gen_intermediate_code cpu tb = Some r /\
     has_chained_exit (op_buf (res_state r)) = false /\
     (forall c, res_exit r = Exit_break c ->
        ctx_bstate (res_ctx r) = BS_NONE /\
        op_buf (res_state r)
        = pre ++ [op_movi_tl cpu_PC (ctx_pc (res_ctx r));
                  op_exit_tb None;
                  op_tb_end (res_num_insns r)])).
Proof.
  intros Hok Hpc Hss. split.
  - intros Hbs. now apply block_exit_open.
  - destruct (gen_intermediate_code_ops cpu tb Hok Hpc)
      as (r & pre & Hrun & Hch & _ & Hops & Hex).
    exists r, pre. split; [exact Hrun|]. split; [exact Hch|].
    intros c Hc. rewrite Hc in Hops, Hex. rewrite Hss in Hops.
    split; [exact Hex|exact Hops].
Qed.

(** C7.  In a pass that meets no breakpoint, once [ctx.pc] has been
    advanced by 4 and [num_insns] by 1, the loop is left by the first
    predicate that holds in the order: per-CPU single-step flag; [ctx.pc]
    at or beyond [next_page_start]; operation buffer full; [num_insns] at
    or beyond [max_insns]; global [singlestep] flag.  The state is not
    changed by the pass, so a loop left this way is left in [BS_NONE]. *)
Theorem C7_termination_order cpu tb nps max_insns ctx n s fuel :
  cpu_breakpoint_test (parent_obj cpu) (ctx_pc ctx) = false ->
  ctx_bstate ctx = BS_NONE ->
  exists ctx' s',
    ctx_pc ctx' = target_ulong (ctx_pc ctx + 4) /\
    ctx_bstate ctx' = BS_NONE /\
    loop_break (parent_obj cpu) ctx' nps (n + 1) max_insns (op_buf s')
    = first_match (termination_predicates (parent_obj cpu) ctx' nps (n + 1)
                                          max_insns (op_buf s')) /\
    loop_body cpu tb nps max_insns ctx n s
    = ((match first_match (termination_predicates (parent_obj cpu) ctx' nps
                             (n + 1) max_insns (op_buf s')) with
        | Some c => Break c
        | None => Next_iteration
        end, ctx', n + 1), s') /\
    translate_loop (S fuel) cpu tb nps max_insns ctx n s
    = match first_match (termination_predicates (parent_obj cpu) ctx' nps
                           (n + 1) max_insns (op_buf s')) with
      | Some c => Some (Exit_break c, ctx', n + 1, s')
      | None => translate_loop fuel cpu tb nps max_insns ctx' (n + 1) s'
      end.
Proof.
  intros Hbp Hbs.
  pose proof (loop_body_decode cpu tb nps max_insns ctx n s Hbp) as Hbody.
  cbv zeta in Hbody. rewrite loop_break_first_match in Hbody.
  exists (set_pc (set_opcode ctx (cpu_ldl_code (env cpu) (ctx_pc ctx) mod 2 ^ 32))
                 (target_ulong (ctx_pc ctx + 4))).
  exists (mkGenState
            (op_buf s ++ op_insn_start (ctx_pc ctx)
             :: (if (n + 1 =? max_insns)
                    && negb (Z.land (tb_cflags tb) CF_LAST_IO =? 0)
                 then [op_io_start] else []))
            (code_loads s ++ [ctx_pc ctx])).
  cbn [op_buf]. split; [|split; [|split; [|split]]].
  - reflexivity.
  - exact Hbs.
  - apply loop_break_first_match.
  - exact Hbody.
  - rewrite translate_loop_S, Hbs, Hbody. cbn [Z.eqb BS_NONE op_buf].
    match goal with
    | |- context [first_match ?l] => destruct (first_match l)
    end; reflexivity.
Qed.

(** *** The exact trace of the loop *)

Lemma translate_loop_trace cpu tb max_insns fuel :
  target_ok -> 0 <= tb_pc tb < 2 ^ TARGET_LONG_BITS ->
  forall ctx n s ex ctx' n' s',
    ctx_bstate ctx = BS_NONE ->
    in_page_of (tb_pc tb) (ctx_pc ctx) ->
    translate_loop fuel cpu tb (next_page_start_of (tb_pc tb)) max_insns ctx n s
    = Some (ex, ctx', n', s') ->
    exists d : nat,
      code_loads s' = code_loads s ++ decoded_pcs (ctx_pc ctx) d /\
      (forall k, (k < d)%nat ->
         cpu_breakpoint_test (parent_obj cpu) (ctx_pc ctx + 4 * Z.of_nat k)
         = false) /\
      match ex with
      | Exit_condition => False
      | Exit_break c =>
          n' = n + Z.of_nat d /\ (0 < d)%nat /\
          op_buf s' = op_buf s ++ decoded_ops tb max_insns (ctx_pc ctx) n d /\
          loop_break (parent_obj cpu) ctx' (next_page_start_of (tb_pc tb))
                     n' max_insns (op_buf s') = Some c
      | Exit_goto_done_generating =>
          n' = n + Z.of_nat d + 1 /\
          op_buf s' = op_buf s ++ decoded_ops tb max_insns (ctx_pc ctx) n d
                      ++ breakpoint_ops (ctx_pc ctx + 4 * Z.of_nat d)
      end.
Proof.
  intros Hok Hpc. induction fuel as [|fuel IH];
    intros ctx n s ex ctx' n' s' Hbs Hin Hrun.
  { cbn in Hrun. rewrite Hbs in Hrun. discriminate. }
  rewrite translate_loop_S, Hbs in Hrun. cbn [Z.eqb BS_NONE] in Hrun.
  destruct (cpu_breakpoint_test (parent_obj cpu) (ctx_pc ctx)) eqn:Hbp.
  - rewrite loop_body_breakpoint in Hrun by assumption.
    injection Hrun as <- <- <- <-. exists 0%nat.
    cbn [decoded_pcs decoded_ops code_loads op_buf app Z.of_nat].
    rewrite app_nil_r, Z.mul_0_r, !Z.add_0_r.
    split; [reflexivity|]. split; [intros k Hk; lia|].
    split; reflexivity.
  - rewrite loop_body_decode in Hrun by assumption. cbv zeta in Hrun.
    match type of Hrun with
    | context [loop_break ?a ?b ?c ?d ?e ?f] =>
        destruct (loop_break a b c d e f) as [c0|] eqn:Hbrk
    end.
    + injection Hrun as <- <- <- <-. exists 1%nat.
      cbn [decoded_pcs decoded_ops code_loads op_buf].
      rewrite app_nil_r.
      split; [reflexivity|]. split.
      { intros k Hk. replace k with 0%nat by lia.
        now rewrite Z.mul_0_r, Z.add_0_r. }
      split; [reflexivity|]. split; [lia|]. split; [reflexivity|exact Hbrk].
    + pose proof (loop_break_none _ _ _ _ _ _ Hbrk) as Hnone.
      cbn [ctx_pc set_pc set_opcode] in Hnone.
      destruct Hnone as (_ & Hpage & _ & Hlt & _).
      destruct (advance_in_page (tb_pc tb) (ctx_pc ctx) Hok Hpc Hin Hpage)
        as [Hadv Hin'].
      apply IH in Hrun; [|assumption|cbn; rewrite Hadv; exact Hin'].
      cbn [ctx_pc ctx_tb ctx_singlestep_enabled ctx_mem_idx ctx_bstate
           set_pc set_opcode op_buf code_loads] in Hrun.
      rewrite Hadv in Hrun.
      destruct Hrun as (d & Hloads & Hnobp & Hex). exists (S d).
      cbn [decoded_pcs decoded_ops].
      split; [rewrite Hloads, <- app_assoc; reflexivity|]. split.
      { intros [|k] Hk.
        - now rewrite Z.mul_0_r, Z.add_0_r.
        - replace (ctx_pc ctx + 4 * Z.of_nat (S k))
            with (ctx_pc ctx + 4 + 4 * Z.of_nat k) by lia.
          apply Hnobp. lia. }
      destruct ex as [|c|]; [contradiction| |].
      * destruct Hex as (Hn & _ & Hops & Hc).
        split; [lia|]. split; [lia|]. split; [|exact Hc].
        rewrite Hops, <- app_assoc. reflexivity.
      * destruct Hex as (Hn & Hops).
        split; [lia|]. rewrite Hops, <- !app_assoc. cbn [app].
        rewrite <- app_assoc.
        replace (ctx_pc ctx + 4 + 4 * Z.of_nat d)
          with (ctx_pc ctx + 4 * Z.of_nat (S d)) by lia.
        reflexivity.
Qed.

(** The whole build with its trace: [d] passes decode an instruction; the
    build then ends either in the breakpoint path or with the exit
    sequence of a [break]. *)
Lemma gen_intermediate_code_trace cpu tb :
  target_ok -> 0 <= tb_pc tb < 2 ^ TARGET_LONG_BITS ->
  exists r (d : nat),
    gen_intermediate_code cpu tb = Some r /\
    res_tb r = mkTB (tb_pc tb) (tb_cflags tb) (4 * res_num_insns r)
                    (res_num_insns r) /\
    ctx_pc (res_ctx r) = target_ulong (tb_pc tb + 4 * res_num_insns r) /\
    in_page_of (tb_pc tb) (tb_pc tb + 4 * (res_num_insns r - 1)) /\
    res_num_insns r <= Z.max 1 (max_insns_of tb) /\
    code_loads (res_state r) = decoded_pcs (tb_pc tb) d /\
    (forall k, (k < d)%nat ->
       cpu_breakpoint_test (parent_obj cpu) (tb_pc tb + 4 * Z.of_nat k)
       = false) /\
    match res_exit r with
    | Exit_condition => False
    | Exit_break c =>
        res_num_insns r = Z.of_nat d /\ (0 < d)%nat /\
        ctx_bstate (res_ctx r) = BS_NONE /\
        loop_break (parent_obj cpu) (res_ctx r)
          (next_page_start_of (tb_pc tb)) (res_num_insns r) (max_insns_of tb)
          (op_tb_start :: decoded_ops tb (max_insns_of tb) (tb_pc tb) 0 d)
        = Some c /\
        op_buf (res_state r)
        = op_tb_start :: decoded_ops tb (max_insns_of tb) (tb_pc tb) 0 d
          ++ break_exit_ops (parent_obj cpu) tb (ctx_pc (res_ctx r))
          ++ [op_tb_end (res_num_insns r)]
    | Exit_goto_done_generating =>
        res_num_insns r = Z.of_nat d + 1 /\
        ctx_bstate (res_ctx r) = BS_BRANCH /\
        cpu_breakpoint_test (parent_obj cpu) (tb_pc tb + 4 * Z.of_nat d)
        = true /\
        op_buf (res_state r)
        = op_tb_start :: decoded_ops tb (max_insns_of tb) (tb_pc tb) 0 d
          ++ breakpoint_ops (tb_pc tb + 4 * Z.of_nat d)
          ++ [op_tb_end (res_num_insns r)]
    end.
Proof.
  intros Hok Hpc.
  destruct (translate_loop_total cpu tb (next_page_start_of (tb_pc tb))
              (max_insns_of tb) (S (Z.to_nat (max_insns_of tb)))
              (initial_ctx cpu tb) 0 initial_state) as [[[[ex ctx'] n'] s'] Hrun];
    [lia|lia|].
  assert (Hin : in_page_of (tb_pc tb) (ctx_pc (initial_ctx cpu tb)))
    by (apply page_base_bounds; destruct Hok; lia).
  pose proof (translate_loop_spec cpu tb (max_insns_of tb) _ Hok Hpc
                _ _ _ _ _ _ _ (eq_refl : ctx_bstate (initial_ctx cpu tb) = BS_NONE)
                Hin Hrun) as Hpost.
  pose proof (translate_loop_trace cpu tb (max_insns_of tb) _ Hok Hpc
                _ _ _ _ _ _ _ (eq_refl : ctx_bstate (initial_ctx cpu tb) = BS_NONE)
                Hin Hrun) as (d & Hloads & Hnobp & Htr).
  destruct Hpost as (Hn & Hle & Hlast & Hpc' & _ & _ & _ & _ & _ & Hex).
  cbn [initial_ctx ctx_pc initial_state op_buf code_loads app] in *.
  rewrite Z.sub_0_r in Hpc'. replace (n' - 0 - 1) with (n' - 1) in * by lia.
  assert (Hsz : target_ulong (ctx_pc ctx' - tb_pc tb) = 4 * n').
  { rewrite Hpc'. replace (tb_pc tb + 4 * n')
      with (tb_pc tb + 4 * (n' - 1) + 4) by lia.
    rewrite span_no_wrap; [lia|assumption|assumption|lia|assumption]. }
  assert (Hgen : gen_intermediate_code cpu tb
                 = Some (mkGenResult
                           (mkTB (tb_pc tb) (tb_cflags tb) (4 * n') n')
                           ctx' n' ex
                           (mkGenState
                              (op_buf s' ++
                               match ex with
                               | Exit_goto_done_generating => []
                               | _ => break_exit_ops (parent_obj cpu) tb
                                                     (ctx_pc ctx')
                               end ++ [op_tb_end n'])
                              (code_loads s')))).
  { unfold gen_intermediate_code, gen_intermediate_code_fuel.
    change (snd (gen_tb_start empty_gen_state)) with initial_state.
    fold (initial_ctx cpu tb). rewrite Hrun, Hsz.
    destruct ex as [|c|]; [contradiction| |].
    - unfold break_exit_ops.
      rewrite (block_exit_eq_break (parent_obj cpu) ctx') by assumption.
      destruct (negb (Z.land (tb_cflags tb) CF_LAST_IO =? 0));
        destruct (negb (cs_singlestep_enabled (parent_obj cpu) =? 0));
        run_gen; reflexivity.
    - run_gen. reflexivity. }
  eexists. exists d. split; [exact Hgen|].
  cbn [res_tb res_ctx res_num_insns res_exit res_state op_buf code_loads].
  split; [reflexivity|]. split; [exact Hpc'|]. split; [exact Hlast|].
  split; [lia|]. split; [exact Hloads|]. split; [exact Hnobp|].
  destruct ex as [|c|]; [contradiction| |].
  - destruct Htr as (Hnd & Hd & Hops & Hc). rewrite Z.add_0_l in Hnd.
    split; [exact Hnd|]. split; [exact Hd|]. split; [exact Hex|].
    rewrite Hops in Hc. split; [exact Hc|]. rewrite Hops. reflexivity.
  - destruct Htr as (Hnd & Hops). rewrite Z.add_0_l in Hnd.
    destruct Hex as [Hbs Hbp].
    split; [exact Hnd|]. split; [exact Hbs|].
    split; [rewrite Hnd in Hbp;
            replace (Z.of_nat d + 1 - 1) with (Z.of_nat d) in Hbp by lia;
            exact Hbp|].
    rewrite Hops. cbn [app]. rewrite <- app_assoc. reflexivity.
Qed.

(** *** Further properties of a build *)

Lemma decoded_pcs_map pc d :
  decoded_pcs pc d = map (fun k => pc + 4 * Z.of_nat k) (seq 0 d).
Proof.
  revert pc. induction d as [|d IH]; intros pc; [reflexivity|].
  cbn [decoded_pcs seq map]. rewrite IH, <- seq_shift, map_map.
  f_equal; [lia|]. apply map_ext. intros k. lia.
Qed.

Lemma decoded_pcs_snoc pc d :
  decoded_pcs pc d ++ [pc + 4 * Z.of_nat d] = decoded_pcs pc (S d).
Proof.
  revert pc. induction d as [|d IH]; intros pc.
  - cbn. now rewrite Z.add_0_r.
  - cbn [decoded_pcs app]. f_equal.
    replace (pc + 4 * Z.of_nat (S d)) with (pc + 4 + 4 * Z.of_nat d) by lia.
    apply IH.
Qed.

Lemma insn_start_pcs_app a b :
  insn_start_pcs (a ++ b) = insn_start_pcs a ++ insn_start_pcs b.
Proof.
  induction a as [|o a IH]; [reflexivity|].
  destruct o; cbn; rewrite IH; reflexivity.
Qed.

Lemma insn_start_pcs_decoded tb max_insns pc n d :
  insn_start_pcs (decoded_ops tb max_insns pc n d) = decoded_pcs pc d.
Proof.
  revert pc n. induction d as [|d IH]; intros pc n; [reflexivity|].
  cbn [decoded_ops decoded_pcs insn_start_pcs].
  rewrite insn_start_pcs_app, IH.
  destruct ((n + 1 =? max_insns) && _); reflexivity.
Qed.

Lemma insn_start_pcs_break_exit cs tb pc :
  insn_start_pcs (break_exit_ops cs tb pc) = [].
Proof.
  unfold break_exit_ops.
  destruct (negb (Z.land (tb_cflags tb) CF_LAST_IO =? 0));
    destruct (negb (cs_singlestep_enabled cs =? 0)); reflexivity.
Qed.

Lemma filter_pc_write_decoded tb max_insns pc n d :
  filter is_pc_write (decoded_ops tb max_insns pc n d) = [].
Proof.
  revert pc n. induction d as [|d IH]; intros pc n; [reflexivity|].
  cbn [decoded_ops filter is_pc_write]. rewrite filter_app, IH.
  destruct ((n + 1 =? max_insns) && _); reflexivity.
Qed.

Lemma debug_trap_target_decoded tb max_insns pc n d last rest :
  debug_trap_target_from last (decoded_ops tb max_insns pc n d ++ rest)
  = debug_trap_target_from last rest.
Proof.
  revert pc n. induction d as [|d IH]; intros pc n; [reflexivity|].
  cbn [decoded_ops app debug_trap_target_from]. rewrite <- app_assoc.
  destruct ((n + 1 =? max_insns) && _); cbn [app debug_trap_target_from];
    apply IH.
Qed.

(** The [gen_io_start] marker appears in the pass that reaches
    [max_insns], and only for a block flagged [CF_LAST_IO]. *)
Lemma filter_io_decoded tb max_insns pc n d :
  filter is_io_op (decoded_ops tb max_insns pc n d)
  = if negb (Z.land (tb_cflags tb) CF_LAST_IO =? 0)
       && (n <? max_insns) && (max_insns <=? n + Z.of_nat d)
    then [op_io_start] else [].
Proof.
  revert pc n. induction d as [|d IH]; intros pc n.
  - cbn [decoded_ops filter Z.of_nat]. rewrite Z.add_0_r.
    destruct (negb _); cbn [andb]; [|reflexivity].
    destruct (n <? max_insns) eqn:E1; [|reflexivity].
    destruct (max_insns <=? n) eqn:E2; [|reflexivity].
    apply Z.ltb_lt in E1. apply Z.leb_le in E2. lia.
  - cbn [decoded_ops filter is_io_op]. rewrite filter_app, IH.
    destruct (negb (Z.land (tb_cflags tb) CF_LAST_IO =? 0));
      [|rewrite andb_false_r; reflexivity].
    rewrite andb_true_r. cbn [andb].
    destruct (n + 1 =? max_insns) eqn:E.
    + apply Z.eqb_eq in E.
      replace (n + 1 <? max_insns) with false by (symmetry; apply Z.ltb_ge; lia).
      replace (n <? max_insns) with true by (symmetry; apply Z.ltb_lt; lia).
      replace (max_insns <=? n + Z.of_nat (S d)) with true
        by (symmetry; apply Z.leb_le; lia).
      reflexivity.
    + apply Z.eqb_neq in E. cbn [filter app].
      destruct (n + 1 <? max_insns) eqn:E1.
      * apply Z.ltb_lt in E1.
        replace (n <? max_insns) with true by (symmetry; apply Z.ltb_lt; lia).
        cbn [andb].
        replace (n + 1 + Z.of_nat d) with (n + Z.of_nat (S d)) by lia.
        reflexivity.
      * apply Z.ltb_ge in E1. cbn [andb].
        destruct (n <? max_insns) eqn:E2; [|reflexivity].
        apply Z.ltb_lt in E2. lia.
Qed.

(** The instructions of a block are fetched from consecutive addresses,
    starting at [tb->pc], one for every counted instruction except the
    pass that ends in the breakpoint path; no instruction is fetched from
    an address that carries a breakpoint. *)
Theorem fetches_consecutive_and_breakpoint_free cpu tb :
  target_ok -> 0 <= tb_pc tb < 2 ^ TARGET_LONG_BITS ->
  exists r,
    gen_intermediate_code cpu tb = Some r /\
    code_loads (res_state r)
    = map (fun k => tb_pc tb + 4 * Z.of_nat k)
          (seq 0 (Z.to_nat (match res_exit r with
                            | Exit_goto_done_generating => tb_icount (res_tb r) - 1
                            | _ => tb_icount (res_tb r)
                            end))) /\
    forall a, In a (code_loads (res_state r)) ->
              cpu_breakpoint_test (parent_obj cpu) a = false.
Proof.
  intros Hok Hpc.
  destruct (gen_intermediate_code_trace cpu tb Hok Hpc)
    as (r & d & Hgen & Htb & _ & _ & _ & Hloads & Hnobp & Hex).
  exists r. split; [exact Hgen|]. rewrite Htb, Hloads, decoded_pcs_map.
  cbn [tb_icount]. split.
  - f_equal. f_equal.
    destruct (res_exit r); [contradiction| |];
      destruct Hex as [Hn _]; rewrite Hn; lia.
  - intros a Ha. apply in_map_iff in Ha. destruct Ha as (k & <- & Hk).
    apply in_seq in Hk. apply Hnobp. lia.
Qed.

(** The stream holds one [insn_start] marker for every counted
    instruction, in order, recording [tb->pc], [tb->pc + 4], ... *)
Theorem insn_start_markers cpu tb :
  target_ok -> 0 <= tb_pc tb < 2 ^ TARGET_LONG_BITS ->
  exists r,
    gen_intermediate_code cpu tb = Some r /\
    insn_start_pcs (op_buf (res_state r))
    = map (fun k => tb_pc tb + 4 * Z.of_nat k)
          (seq 0 (Z.to_nat (tb_icount (res_tb r)))).
Proof.
  intros Hok Hpc.
  destruct (gen_intermediate_code_trace cpu tb Hok Hpc)
    as (r & d & Hgen & Htb & _ & _ & _ & _ & _ & Hex).
  exists r. split; [exact Hgen|]. rewrite Htb. cbn [tb_icount].
  rewrite <- decoded_pcs_map.
  destruct (res_exit r); [contradiction| |].
  - destruct Hex as (Hn & _ & _ & _ & Hops). rewrite Hops, Hn, Nat2Z.id.
    cbn [insn_start_pcs].
    rewrite !insn_start_pcs_app, insn_start_pcs_decoded,
      insn_start_pcs_break_exit.
    cbn. now rewrite app_nil_r.
  - destruct Hex as (Hn & _ & _ & Hops). rewrite Hops, Hn.
    replace (Z.to_nat (Z.of_nat d + 1)) with (S d) by lia.
    cbn [insn_start_pcs].
    rewrite !insn_start_pcs_app, insn_start_pcs_decoded.
    cbn [breakpoint_ops insn_start_pcs app]. apply decoded_pcs_snoc.
Qed.

(** Restoring the state from the data of any [insn_start] marker of a
    block puts the PC on an instruction boundary inside
    [[tb->pc, tb->pc + tb->size)]. *)
Theorem restored_pc_inside_block cpu tb (e : CPURISCVState) :
  target_ok -> 0 <= tb_pc tb < 2 ^ TARGET_LONG_BITS ->
  exists r,
    gen_intermediate_code cpu tb = Some r /\
    forall a rest, In a (insn_start_pcs (op_buf (res_state r))) ->
      exists e',
        restore_state_to_opc e (res_tb r) (a :: rest) = Some e' /\
        tb_pc tb <= PC e' < tb_pc tb + tb_size (res_tb r) /\
        (PC e' - tb_pc tb) mod 4 = 0 /\
        same_guest_page (PC e') (tb_pc tb).
Proof.
  intros Hok Hpc.
  destruct (insn_start_markers cpu tb Hok Hpc) as (r & Hgen & Hm).
  destruct (gen_intermediate_code_trace cpu tb Hok Hpc)
    as (r' & d & Hgen' & Htb & _ & Hlast & _).
  rewrite Hgen in Hgen'. injection Hgen' as <-.
  exists r. split; [exact Hgen|]. intros a rest Ha.
  rewrite Hm in Ha. apply in_map_iff in Ha. destruct Ha as (k & <- & Hk).
  apply in_seq in Hk. rewrite Htb in *. cbn [tb_icount tb_size] in *.
  eexists. split; [reflexivity|]. cbn [PC].
  assert (Hkz : 0 <= Z.of_nat k < res_num_insns r) by lia.
  split; [lia|]. split.
  - replace (tb_pc tb + 4 * Z.of_nat k - tb_pc tb) with (Z.of_nat k * 4) by lia.
    apply Z_mod_mult.
  - apply in_page_same_page; [destruct Hok; lia|].
    pose proof (page_base_bounds (tb_pc tb) ltac:(destruct Hok; lia)) as Hb.
    destruct Hlast as [_ Hhi]. unfold in_page_of. lia.
Qed.

(** A build that ends in the breakpoint path stopped at an address that
    carries a breakpoint; the PC written for the debug exception is that
    address; and the address is covered by [[tb->pc, tb->pc + tb->size)],
    being its last instruction slot. *)
Theorem breakpoint_covered_by_block cpu tb :
  target_ok -> 0 <= tb_pc tb < 2 ^ TARGET_LONG_BITS ->
  exists r,
    gen_intermediate_code cpu tb = Some r /\
    (res_exit r = Exit_goto_done_generating ->
     let bp := tb_pc tb + tb_size (res_tb r) - 4 in
     cpu_breakpoint_test (parent_obj cpu) bp = true /\
     debug_trap_target (op_buf (res_state r)) = Some bp /\
     tb_pc tb <= bp < tb_pc tb + tb_size (res_tb r) /\
     ~ In bp (code_loads (res_state r))).
Proof.
  intros Hok Hpc.
  destruct (gen_intermediate_code_trace cpu tb Hok Hpc)
    as (r & d & Hgen & Htb & _ & _ & _ & Hloads & Hnobp & Hex).
  exists r. split; [exact Hgen|]. intros Hexit. rewrite Hexit in Hex.
  destruct Hex as (Hn & _ & Hbp & Hops).
  rewrite Htb. cbn [tb_size]. cbv zeta.
  replace (tb_pc tb + 4 * res_num_insns r - 4)
    with (tb_pc tb + 4 * Z.of_nat d) by lia.
  split; [exact Hbp|]. split; [|split; [lia|]].
  - rewrite Hops. unfold debug_trap_target.
    cbn [debug_trap_target_from]. rewrite debug_trap_target_decoded.
    reflexivity.
  - rewrite Hloads, decoded_pcs_map. intros Hin.
    apply in_map_iff in Hin. destruct Hin as (k & Hk & Hseq).
    apply in_seq in Hseq. lia.
Qed.

Lemma loop_break_singlestep cs ctx nps n max_insns ops :
  cs_singlestep_enabled cs <> 0 \/ singlestep <> 0 ->
  loop_break cs ctx nps n max_insns ops <> None.
Proof.
  intros H Hnone. apply loop_break_none in Hnone.
  destruct Hnone as (H1 & _ & _ & _ & H5). destruct H; contradiction.
Qed.

(** With single-stepping requested, per CPU or by the global [singlestep]
    flag, every block counts exactly one instruction and is four bytes
    long. *)
Theorem singlestep_block_has_one_instruction cpu tb :
  target_ok -> 0 <= tb_pc tb < 2 ^ TARGET_LONG_BITS ->
  cs_singlestep_enabled (parent_obj cpu) <> 0 \/ singlestep <> 0 ->
  exists r,
    gen_intermediate_code cpu tb = Some r /\
    tb_icount (res_tb r) = 1 /\ tb_size (res_tb r) = 4 /\
    (List.length (code_loads (res_state r)) <= 1)%nat.
Proof.
  intros Hok Hpc Hss.
  destruct (gen_intermediate_code_trace cpu tb Hok Hpc)
    as (r & d & Hgen & Htb & _ & _ & _ & Hloads & _ & Hex).
  exists r. split; [exact Hgen|].
  assert (Hone : res_num_insns r = 1).
  { unfold gen_intermediate_code, gen_intermediate_code_fuel in Hgen.
    change (snd (gen_tb_start empty_gen_state)) with initial_state in Hgen.
    fold (initial_ctx cpu tb) in Hgen.
    rewrite translate_loop_S in Hgen.
    cbn [initial_ctx ctx_bstate Z.eqb BS_NONE] in Hgen.
    fold (initial_ctx cpu tb) in Hgen.
    destruct (cpu_breakpoint_test (parent_obj cpu) (ctx_pc (initial_ctx cpu tb)))
      eqn:Hbp.
    - rewrite loop_body_breakpoint in Hgen by exact Hbp.
      injection Hgen as <-. reflexivity.
    - rewrite loop_body_decode in Hgen by exact Hbp. cbv zeta in Hgen.
      match type of Hgen with
      | context [loop_break ?a ?b ?c ?d ?e ?f] =>
          pose proof (loop_break_singlestep a b c d e f Hss) as Hsome;
          destruct (loop_break a b c d e f) as [c0|]
      end; [|congruence].
      injection Hgen as <-. reflexivity. }
  rewrite Htb, Hloads, Hone. cbn [tb_icount tb_size].
  split; [reflexivity|]. split; [reflexivity|].
  assert (Hlen : forall pc k, List.length (decoded_pcs pc k) = k)
    by (intros pc k; revert pc; induction k; intros; cbn; auto).
  rewrite Hlen.
  destruct (res_exit r); [contradiction| |]; destruct Hex as [Hn _]; lia.
Qed.

(** When nothing else stops the loop (no single-stepping, the operation
    buffer never full, no breakpoint on the way, room left on the page),
    the block holds exactly [max_insns] instructions. *)
Theorem budget_met_exactly cpu tb :
  target_ok -> 0 <= tb_pc tb < 2 ^ TARGET_LONG_BITS ->
  1 <= max_insns_of tb ->
  cs_singlestep_enabled (parent_obj cpu) = 0 -> singlestep = 0 ->
  (forall ops, tcg_op_buf_full ops = false) ->
  (forall k, 0 <= k < max_insns_of tb ->
             cpu_breakpoint_test (parent_obj cpu) (tb_pc tb + 4 * k) = false) ->
  tb_pc tb + 4 * (max_insns_of tb - 1) < next_page_start_of (tb_pc tb) ->
  exists r,
    gen_intermediate_code cpu tb = Some r /\
    tb_icount (res_tb r) = max_insns_of tb /\
    tb_size (res_tb r) = 4 * max_insns_of tb /\
    Z.of_nat (List.length (code_loads (res_state r))) = max_insns_of tb.
Proof.
  intros Hok Hpc Hmax Hss Hgs Hfull Hnobp Hroom.
  destruct (gen_intermediate_code_trace cpu tb Hok Hpc)
    as (r & d & Hgen & Htb & Hpc' & _ & Hle & Hloads & _ & Hex).
  exists r. split; [exact Hgen|].
  assert (Hlen : forall pc k, List.length (decoded_pcs pc k) = k)
    by (intros pc k; revert pc; induction k; intros; cbn; auto).
  rewrite Htb, Hloads, Hlen. cbn [tb_icount tb_size].
  rewrite Z.max_r in Hle by lia.
  destruct (res_exit r) as [|c|]; [contradiction| |].
  - destruct Hex as (Hn & Hd & _ & Hc & _).
    assert (Heq : res_num_insns r = max_insns_of tb).
    { destruct (Z_lt_le_dec (res_num_insns r) (max_insns_of tb)) as [Hlt|Hge];
        [exfalso|lia].
      assert (Hnps : next_page_start_of (tb_pc tb) < 2 ^ TARGET_LONG_BITS).
      { unfold next_page_start_of, target_ulong.
        apply Z.mod_pos_bound. lia. }
      assert (Hsmall : ctx_pc (res_ctx r) = tb_pc tb + 4 * res_num_insns r).
      { rewrite Hpc'. unfold target_ulong. apply Z.mod_small. lia. }
      unfold loop_break in Hc. rewrite Hss, Hgs, Hfull, Hsmall in Hc.
      cbn [Z.eqb negb] in Hc.
      replace (tb_pc tb + 4 * res_num_insns r >=? next_page_start_of (tb_pc tb))
        with false in Hc by (symmetry; rewrite Z.geb_leb; apply Z.leb_gt; lia).
      replace (res_num_insns r >=? max_insns_of tb) with false in Hc
        by (symmetry; rewrite Z.geb_leb; apply Z.leb_gt; lia).
      discriminate Hc. }
    rewrite <- Hn, Heq. auto.
  - destruct Hex as (Hn & _ & Hbp & _). exfalso.
    rewrite Hnobp in Hbp by lia. discriminate Hbp.
Qed.

(** The instruction budget: a block counts at least one instruction, never
    more than [TCG_MAX_INSNS], and never more than the count requested in
    [tb->cflags] when that count is not 0. *)
Theorem icount_within_budget cpu tb :
  target_ok -> 0 <= tb_pc tb < 2 ^ TARGET_LONG_BITS ->
  0 < CF_COUNT_MASK -> 0 < TCG_MAX_INSNS ->
  exists r,
    gen_intermediate_code cpu tb = Some r /\
    1 <= tb_icount (res_tb r) <= TCG_MAX_INSNS /\
    (Z.land (tb_cflags tb) CF_COUNT_MASK <> 0 ->
     tb_icount (res_tb r) <= Z.land (tb_cflags tb) CF_COUNT_MASK).
Proof.
  intros Hok Hpc Hcm Htm.
  destruct (gen_intermediate_code_trace cpu tb Hok Hpc)
    as (r & d & Hgen & Htb & _ & _ & Hle & _ & _ & Hex).
  exists r. split; [exact Hgen|]. rewrite Htb. cbn [tb_icount].
  pose proof (max_insns_of_pos tb Hcm Htm) as Hpos.
  rewrite Z.max_r in Hle by lia.
  assert (H1 : 1 <= res_num_insns r).
  { destruct (res_exit r); [contradiction| |]; destruct Hex as [Hn ?]; lia. }
  unfold max_insns_of in Hle.
  destruct (Z.land (tb_cflags tb) CF_COUNT_MASK =? 0) eqn:E.
  - apply Z.eqb_eq in E.
    destruct (CF_COUNT_MASK >? TCG_MAX_INSNS) eqn:G;
      [apply Z.gtb_lt in G|rewrite Z.gtb_ltb in G; apply Z.ltb_ge in G];
      repeat split; lia.
  - apply Z.eqb_neq in E.
    destruct (Z.land (tb_cflags tb) CF_COUNT_MASK >? TCG_MAX_INSNS) eqn:G;
      [apply Z.gtb_lt in G|rewrite Z.gtb_ltb in G; apply Z.ltb_ge in G];
      repeat split; lia.
Qed.

(** The span of a block: at least one instruction, at most one page plus
    three bytes; a block that starts on a four-byte boundary ends at the
    end of its page at the latest. *)
Theorem block_span_bounds cpu tb :
  target_ok -> 0 <= tb_pc tb < 2 ^ TARGET_LONG_BITS ->
  exists r,
    gen_intermediate_code cpu tb = Some r /\
    4 <= tb_size (res_tb r) <= 2 ^ TARGET_PAGE_BITS + 3 /\
    tb_pc tb + tb_size (res_tb r) <= page_end (tb_pc tb) + 3 /\
    (tb_pc tb mod 4 = 0 ->
     tb_pc tb + tb_size (res_tb r) <= page_end (tb_pc tb)).
Proof.
  intros Hok Hpc.
  destruct (gen_intermediate_code_trace cpu tb Hok Hpc)
    as (r & d & Hgen & Htb & _ & Hlast & _ & _ & _ & Hex).
  exists r. split; [exact Hgen|]. rewrite Htb. cbn [tb_size].
  assert (H1 : 1 <= res_num_insns r).
  { destruct (res_exit r); [contradiction| |]; destruct Hex as [Hn ?]; lia. }
  pose proof (page_base_bounds (tb_pc tb) ltac:(destruct Hok; lia)) as Hb.
  destruct Hlast as [_ Hhi]. unfold page_end in *.
  split; [lia|]. split; [lia|]. intros Hal.
  assert (Hp4 : 2 ^ TARGET_PAGE_BITS = 4 * 2 ^ (TARGET_PAGE_BITS - 2)).
  { change 4 with (2 ^ 2). rewrite <- Z.pow_add_r by (destruct Hok; lia).
    f_equal. lia. }
  pose proof (Z.div_mod (tb_pc tb) 4 ltac:(lia)) as Hdm. rewrite Hal in Hdm.
  unfold page_base in *. rewrite Hp4 in *.
  set (q := tb_pc tb / (4 * 2 ^ (TARGET_PAGE_BITS - 2))) in *.
  set (m := 2 ^ (TARGET_PAGE_BITS - 2)) in *.
  set (a := tb_pc tb / 4) in *.
  assert (a + res_num_insns r - 1 < m * q + m) by nia. nia.
Qed.

(** Every build writes the PC exactly once: to the breakpoint address when
    it ends in the breakpoint path, and otherwise to [tb->pc + tb->size],
    the address that follows the block. *)
Theorem pc_written_exactly_once cpu tb :
  target_ok -> 0 <= tb_pc tb < 2 ^ TARGET_LONG_BITS ->
  exists r,
    gen_intermediate_code cpu tb = Some r /\
    filter is_pc_write (op_buf (res_state r))
    = [op_movi_tl cpu_PC
         (match res_exit r with
          | Exit_goto_done_generating => tb_pc tb + tb_size (res_tb r) - 4
          | _ => target_ulong (tb_pc tb + tb_size (res_tb r))
          end)].
Proof.
  intros Hok Hpc.
  destruct (gen_intermediate_code_trace cpu tb Hok Hpc)
    as (r & d & Hgen & Htb & Hpc' & _ & _ & _ & _ & Hex).
  exists r. split; [exact Hgen|]. rewrite Htb. cbn [tb_size].
  destruct (res_exit r); [contradiction| |].
  - destruct Hex as (_ & _ & _ & _ & Hops). rewrite Hops.
    cbn [filter is_pc_write].
    rewrite !filter_app, filter_pc_write_decoded. unfold break_exit_ops.
    rewrite filter_app, Hpc'.
    destruct (negb (Z.land (tb_cflags tb) CF_LAST_IO =? 0));
      destruct (negb (cs_singlestep_enabled (parent_obj cpu) =? 0));
      reflexivity.
  - destruct Hex as (Hn & _ & _ & Hops). rewrite Hops.
    cbn [filter is_pc_write].
    rewrite !filter_app, filter_pc_write_decoded.
    cbn [breakpoint_ops filter is_pc_write app]. do 2 f_equal. lia.
Qed.

(** The I/O markers of a block.  Without [CF_LAST_IO], and on the
    breakpoint path, there is none.  With [CF_LAST_IO], a block left by a
    [break] carries [gen_io_end], preceded by [gen_io_start] exactly when
    the block reached its budget [max_insns]. *)
Theorem io_markers cpu tb :
  target_ok -> 0 <= tb_pc tb < 2 ^ TARGET_LONG_BITS ->
  1 <= max_insns_of tb ->
  exists r,
    gen_intermediate_code cpu tb = Some r /\
    filter is_io_op (op_buf (res_state r))
    = match res_exit r with
      | Exit_goto_done_generating => []
      | _ =>
        if Z.land (tb_cflags tb) CF_LAST_IO =? 0 then []
        else if tb_icount (res_tb r) =? max_insns_of tb
             then [op_io_start; op_io_end]
             else [op_io_end]
      end.
Proof.
  intros Hok Hpc Hmax.
  destruct (gen_intermediate_code_trace cpu tb Hok Hpc)
    as (r & d & Hgen & Htb & _ & _ & Hle & _ & _ & Hex).
  exists r. split; [exact Hgen|]. rewrite Htb. cbn [tb_icount].
  rewrite Z.max_r in Hle by lia.
  destruct (res_exit r); [contradiction| |].
  - destruct Hex as (Hn & _ & _ & _ & Hops). rewrite Hops.
    cbn [filter is_io_op].
    rewrite !filter_app, filter_io_decoded. unfold break_exit_ops.
    rewrite filter_app. rewrite Z.add_0_l, <- Hn.
    replace (0 <? max_insns_of tb) with true by (symmetry; apply Z.ltb_lt; lia).
    rewrite andb_true_r.
    destruct (Z.land (tb_cflags tb) CF_LAST_IO =? 0); cbn [negb andb].
    + destruct (negb (cs_singlestep_enabled (parent_obj cpu) =? 0)); reflexivity.
    + destruct (res_num_insns r =? max_insns_of tb) eqn:E.
      * apply Z.eqb_eq in E.
        replace (max_insns_of tb <=? res_num_insns r) with true
          by (symmetry; apply Z.leb_le; lia).
        destruct (negb (cs_singlestep_enabled (parent_obj cpu) =? 0)); reflexivity.
      * apply Z.eqb_neq in E.
        replace (max_insns_of tb <=? res_num_insns r) with false
          by (symmetry; apply Z.leb_gt; lia).
        destruct (negb (cs_singlestep_enabled (parent_obj cpu) =? 0)); reflexivity.
  - destruct Hex as (Hn & _ & _ & Hops). rewrite Hops.
    cbn [filter is_io_op].
    rewrite !filter_app, filter_io_decoded. rewrite Z.add_0_l.
    replace (max_insns_of tb <=? Z.of_nat d) with false
      by (symmetry; apply Z.leb_gt; lia).
    rewrite andb_false_r. reflexivity.
Qed.

Lemma use_goto_tb_spec ctx dest :
  0 <= TARGET_PAGE_BITS ->
  (use_goto_tb ctx dest = true <->
   ctx_singlestep_enabled ctx = 0 /\
   (CONFIG_USER_ONLY = true \/ same_guest_page (tb_pc (ctx_tb ctx)) dest)).
Proof using TARGET_PAGE_BITS CONFIG_USER_ONLY.
  clear tcg_op_buf_full.
  intros Hk. unfold use_goto_tb.
  destruct (ctx_singlestep_enabled ctx =? 0) eqn:Ess; cbn [negb].
  - apply Z.eqb_eq in Ess. destruct CONFIG_USER_ONLY.
    + intuition.
    + rewrite Z.eqb_eq, same_page_mask by assumption.
      intuition discriminate.
  - apply Z.eqb_neq in Ess. intuition discriminate.
Qed.

(** The exit logic chains only out of the explicit stop state: it emits a
    chained exit exactly when debug mode is off, the state is [BS_STOP],
    the context is not single-stepping and (in a system-emulation build)
    [ctx.pc] lies on the guest page of [tb->pc].  It emits nothing exactly
    when the state is [BS_BRANCH], or debug mode is off and the state is
    outside the enumeration. *)
Theorem block_exit_chains_only_from_stop cs ctx s :
  0 <= TARGET_PAGE_BITS ->
  exists ops,
    block_exit cs ctx s = (tt, mkGenState (op_buf s ++ ops) (code_loads s)) /\
    (has_chained_exit ops = true <->
     cs_singlestep_enabled cs = 0 /\ ctx_bstate ctx = BS_STOP /\
     ctx_singlestep_enabled ctx = 0 /\
     (CONFIG_USER_ONLY = true \/
      same_guest_page (tb_pc (ctx_tb ctx)) (ctx_pc ctx))) /\
    (ops = [] <->
     ctx_bstate ctx = BS_BRANCH \/
     (cs_singlestep_enabled cs = 0 /\ ctx_bstate ctx <> BS_STOP /\
      ctx_bstate ctx <> BS_NONE)).
Proof using TARGET_PAGE_BITS CONFIG_USER_ONLY.
  clear tcg_op_buf_full.
  intros Hk.
  destruct (Z.eq_dec (ctx_bstate ctx) BS_BRANCH) as [Eb|Nb].
  { exists []. rewrite block_exit_branch, app_nil_r by assumption.
    destruct s. split; [reflexivity|]. split.
    - cbn. split; [discriminate|]. intros (_ & H & _).
      rewrite Eb in H. discriminate H.
    - tauto. }
  destruct (Z.eq_dec (cs_singlestep_enabled cs) 0) as [Es|Ns].
  - unfold block_exit. rewrite Es. cbn [Z.eqb negb andb].
    destruct (ctx_bstate ctx =? BS_STOP) eqn:Estop.
    + apply Z.eqb_eq in Estop. rewrite gen_goto_tb_run.
      eexists. split; [reflexivity|].
      pose proof (use_goto_tb_spec ctx (ctx_pc ctx) Hk) as Hu.
      destruct (use_goto_tb ctx (ctx_pc ctx)).
      * split; [cbn; intuition|].
        split; [discriminate|]. intros [H|(_ & H & _)]; contradiction.
      * split.
        -- destruct (negb (ctx_singlestep_enabled ctx =? 0)); cbn;
             (split; [discriminate|]);
             intros (_ & _ & H1 & H2); apply Hu; auto.
        -- split; [discriminate|]. intros [H|(_ & H & _)]; contradiction.
    + apply Z.eqb_neq in Estop.
      destruct (ctx_bstate ctx =? BS_NONE) eqn:Enone.
      * apply Z.eqb_eq in Enone. eexists. run_gen.
        split; [reflexivity|]. split.
        -- cbn. split; [discriminate|]. intros (_ & H & _). contradiction.
        -- split; [discriminate|]. intros [H|(_ & _ & H)]; contradiction.
      * apply Z.eqb_neq in Enone. exists [].
        rewrite app_nil_r. destruct s. split; [reflexivity|]. split.
        -- cbn. split; [discriminate|]. intros (_ & H & _). contradiction.
        -- tauto.
  - rewrite block_exit_debug by assumption. eexists.
    split; [reflexivity|]. split.
    + destruct (ctx_bstate ctx =? BS_NONE); cbn;
        (split; [discriminate|]); intros (H & _); contradiction.
    + destruct (ctx_bstate ctx =? BS_NONE); cbn;
        (split; [discriminate|]); intros [H|(H & _)]; contradiction.
Qed.

(** [kill_unknown] writes [ctx.pc] to the PC, raises the exception and
    requests a stop.  From the context it returns the loop is left at its
    next condition test, whatever the bound on passes, without another
    marker or fetch; the exit logic then takes the [BS_STOP] path, or in
    debug mode raises the debug exception without a second PC write. *)
Theorem kill_unknown_ends_block cpu tb nps max_insns ctx excp n s fuel :
  let ctx1 := fst (kill_unknown ctx excp s) in
  let s1 := snd (kill_unknown ctx excp s) in
  ctx1 = set_bstate ctx BS_STOP /\
  s1 = mkGenState (op_buf s ++ [op_movi_tl cpu_PC (ctx_pc ctx);
                                op_raise_exception excp])
                  (code_loads s) /\
  translate_loop fuel cpu tb nps max_insns ctx1 n s1
  = Some (Exit_condition, ctx1, n, s1) /\
  (cs_singlestep_enabled (parent_obj cpu) = 0 ->
   block_exit (parent_obj cpu) ctx1 s1 = gen_goto_tb ctx1 0 (ctx_pc ctx) s1) /\
  (cs_singlestep_enabled (parent_obj cpu) <> 0 ->
   block_exit (parent_obj cpu) ctx1 s1
   = (tt, mkGenState (op_buf s1 ++ [op_raise_exception_debug])
                     (code_loads s1))).
Proof.
  cbv zeta.
  assert (Hk : kill_unknown ctx excp s
               = (set_bstate ctx BS_STOP,
                  mkGenState (op_buf s ++ [op_movi_tl cpu_PC (ctx_pc ctx);
                                           op_raise_exception excp])
                             (code_loads s))).
  { unfold kill_unknown, generate_exception. now run_gen. }
  rewrite Hk. cbn [fst snd].
  split; [reflexivity|]. split; [reflexivity|]. split; [|split].
  - destruct fuel; reflexivity.
  - intros Hss. unfold block_exit. rewrite Hss. reflexivity.
  - intros Hss. rewrite block_exit_debug by (assumption || discriminate).
    reflexivity.
Qed.

End Translate.

(** ** The build does not look at the instruction words *)

Section Independence.

Variable TARGET_LONG_BITS : Z.
Variable TARGET_PAGE_BITS : Z.
Variable CONFIG_USER_ONLY : bool.
Variable CF_COUNT_MASK : Z.
Variable CF_LAST_IO : Z.
Variable TCG_MAX_INSNS : Z.
Variable tcg_op_buf_full : list tcg_op -> bool.
Variable singlestep : Z.
Variable mem1 mem2 : CPURISCVState -> Z -> Z.
Variable mmu1 mmu2 : CPURISCVState -> bool -> Z.

Lemma loop_break_control cs ctx1 ctx2 nps n max_insns ops :
  ctx_control ctx1 = ctx_control ctx2 ->
  loop_break tcg_op_buf_full singlestep cs ctx1 nps n max_insns ops
  = loop_break tcg_op_buf_full singlestep cs ctx2 nps n max_insns ops.
Proof.
  intros H. unfold ctx_control in H. injection H as _ Hpc _ _.
  unfold loop_break. now rewrite Hpc.
Qed.

Lemma translate_loop_independent cpu tb nps max_insns fuel :
  forall ctx1 ctx2 n s,
    ctx_control ctx1 = ctx_control ctx2 ->
    match translate_loop TARGET_LONG_BITS CF_LAST_IO tcg_op_buf_full singlestep
            mem1 fuel cpu tb nps max_insns ctx1 n s,
          translate_loop TARGET_LONG_BITS CF_LAST_IO tcg_op_buf_full singlestep
            mem2 fuel cpu tb nps max_insns ctx2 n s with
    | Some (ex1, c1, n1, s1), Some (ex2, c2, n2, s2) =>
        ex1 = ex2 /\ ctx_control c1 = ctx_control c2 /\ n1 = n2 /\ s1 = s2
    | None, None => True
    | _, _ => False
    end.
Proof.
  induction fuel as [|fuel IH]; intros ctx1 ctx2 n s Hc;
    pose proof Hc as Hc'; unfold ctx_control in Hc';
    injection Hc' as Htb Hpc Hss Hbs.
  - cbn. rewrite Hbs. destruct (ctx_bstate ctx2 =? BS_NONE); auto.
  - rewrite !translate_loop_S, Hbs.
    destruct (ctx_bstate ctx2 =? BS_NONE); [|auto].
    destruct (cpu_breakpoint_test (parent_obj cpu) (ctx_pc ctx1)) eqn:Hbp.
    + rewrite loop_body_breakpoint by exact Hbp.
      rewrite Hpc in Hbp. rewrite loop_body_breakpoint by exact Hbp.
      rewrite Hpc. split; [reflexivity|]. split; [|auto].
      unfold ctx_control. cbn. now rewrite Htb, Hss.
    + rewrite loop_body_decode by exact Hbp.
      rewrite Hpc in Hbp. rewrite loop_body_decode by exact Hbp.
      cbv zeta. rewrite Hpc.
      set (c1 := set_pc (set_opcode ctx1 _) _).
      set (c2 := set_pc (set_opcode ctx2 _) _).
      assert (Hcc : ctx_control c1 = ctx_control c2)
        by (subst c1 c2; unfold ctx_control; cbn; now rewrite Htb, Hss, Hbs).
      rewrite (loop_break_control _ c1 c2 _ _ _ _ Hcc).
      match goal with
      | |- context [loop_break ?f ?g ?cs c2 ?a ?b ?c ?d] =>
          destruct (loop_break f g cs c2 a b c d)
      end.
      * split; [reflexivity|]. split; [exact Hcc|auto].
      * apply IH. exact Hcc.
Qed.

(** The block built for a CPU and a start address does not depend on the
    contents of guest memory nor on the MMU index: with [decode_opc] empty,
    the descriptor, the operation stream, the count, the way the loop is
    left and the final [ctx.pc] and state are the same for any two guest
    memories. *)
Theorem build_independent_of_guest_memory (cpu : RISCVCPU) (tb : TranslationBlock) :
  let observe := fun r : GenResult =>
    (res_tb r, res_num_insns r, res_exit r, res_state r,
     ctx_control (res_ctx r)) in
  option_map observe
    (gen_intermediate_code TARGET_LONG_BITS TARGET_PAGE_BITS CONFIG_USER_ONLY
       CF_COUNT_MASK CF_LAST_IO TCG_MAX_INSNS tcg_op_buf_full singlestep
       mem1 mmu1 cpu tb)
  = option_map observe
      (gen_intermediate_code TARGET_LONG_BITS TARGET_PAGE_BITS CONFIG_USER_ONLY
         CF_COUNT_MASK CF_LAST_IO TCG_MAX_INSNS tcg_op_buf_full singlestep
         mem2 mmu2 cpu tb).
Proof.
  cbv zeta. unfold gen_intermediate_code, gen_intermediate_code_fuel.
  match goal with
  | |- context [translate_loop _ _ _ _ mem1 ?f ?c ?t ?nps ?m ?c1 ?n ?s] =>
      match goal with
      | |- context [translate_loop _ _ _ _ mem2 f c t nps m ?c2 n s] =>
          pose proof (translate_loop_independent c t nps m f c1 c2 n s eq_refl)
            as Hind;
          destruct (translate_loop TARGET_LONG_BITS CF_LAST_IO tcg_op_buf_full
                      singlestep mem1 f c t nps m c1 n s)
            as [[[[ex1 ctx1] n1] s1]|];
          destruct (translate_loop TARGET_LONG_BITS CF_LAST_IO tcg_op_buf_full
                      singlestep mem2 f c t nps m c2 n s)
            as [[[[ex2 ctx2] n2] s2]|]
      end
  end; try contradiction; [|reflexivity].
  destruct Hind as (-> & Hc & -> & ->).
  pose proof Hc as Hc'. unfold ctx_control in Hc'.
  injection Hc' as Htb Hpc Hss Hbs.
  cbn [option_map res_tb res_num_insns res_exit res_state res_ctx].
  rewrite Hc, Hpc.
  assert (Hexit : forall s,
            block_exit TARGET_PAGE_BITS CONFIG_USER_ONLY (parent_obj cpu) ctx1 s
            = block_exit TARGET_PAGE_BITS CONFIG_USER_ONLY (parent_obj cpu) ctx2 s).
  { intros s. unfold block_exit, gen_goto_tb, use_goto_tb.
    now rewrite Htb, Hpc, Hss, Hbs. }
  destruct ex2; unfold bind; try reflexivity;
    destruct (when (negb (Z.land (tb_cflags tb) CF_LAST_IO =? 0)) gen_io_end s2)
      as [u s'];
    rewrite Hexit; reflexivity.
Qed.

End Independence.

(** ** Properties of the CPU model registry *)

Lemma strcasecmp_zero_iff (a b : string) :
  strcasecmp a b = 0 <-> lower_c_string a = lower_c_string b.
Proof.
  revert b. induction a as [|c1 r1 IH]; intros [|c2 r2]; cbn.
  - tauto.
  - destruct (tolower c2 =? 0) eqn:E.
    + apply Z.eqb_eq in E. split; [reflexivity|lia].
    + apply Z.eqb_neq in E. split; [lia|discriminate].
  - destruct (tolower c1 =? 0) eqn:E.
    + apply Z.eqb_eq in E. split; [reflexivity|lia].
    + apply Z.eqb_neq in E. split; [lia|discriminate].
  - destruct (tolower c1 =? tolower c2) eqn:E12.
    + apply Z.eqb_eq in E12. rewrite <- E12.
      destruct (tolower c1 =? 0); [tauto|].
      rewrite IH. split; [intros ->; reflexivity|].
      intros H. now injection H.
    + apply Z.eqb_neq in E12.
      destruct (tolower c1 =? 0) eqn:E1; destruct (tolower c2 =? 0) eqn:E2;
        try apply Z.eqb_eq in E1; try apply Z.eqb_eq in E2;
        (split; [lia|]); try discriminate; try lia.
      intros H. injection H. lia.
Qed.

Lemma find_by_name_from_none name defs i :
  (forall d, In d defs -> lower_c_string name <> lower_c_string (def_name d)) ->
  find_by_name_from name defs i = None.
Proof.
  revert i. induction defs as [|d rest IH]; intros i Hno; cbn; [reflexivity|].
  destruct (strcasecmp name (def_name d) =? 0) eqn:E.
  - apply Z.eqb_eq, strcasecmp_zero_iff in E.
    exfalso. apply (Hno d); [now left|exact E].
  - apply IH. intros d' Hd'. apply Hno. now right.
Qed.

Lemma find_by_name_from_some name defs i j d :
  find_by_name_from name defs i = Some (j, d) ->
  (i <= j)%nat /\ nth_error defs (j - i) = Some d /\
  lower_c_string name = lower_c_string (def_name d).
Proof.
  revert i. induction defs as [|d0 rest IH]; intros i; cbn; [discriminate|].
  destruct (strcasecmp name (def_name d0) =? 0) eqn:E.
  - intros H. injection H as <- <-. rewrite Nat.sub_diag.
    apply Z.eqb_eq, strcasecmp_zero_iff in E. auto.
  - intros H. apply IH in H. destruct H as (Hle & Hnth & Hlow).
    split; [lia|]. split; [|exact Hlow].
    replace (j - i)%nat with (S (j - S i)) by lia. exact Hnth.
Qed.

Lemma find_by_name_from_lower a b defs i :
  lower_c_string a = lower_c_string b ->
  find_by_name_from a defs i = find_by_name_from b defs i.
Proof.
  intros Hab. revert i. induction defs as [|d rest IH]; intros i; cbn;
    [reflexivity|].
  assert (E : (strcasecmp a (def_name d) =? 0) = (strcasecmp b (def_name d) =? 0)).
  { apply eq_true_iff_eq. rewrite !Z.eqb_eq, !strcasecmp_zero_iff, Hab.
    tauto. }
  rewrite E, IH. reflexivity.
Qed.

(** C8.  Lookup compares names without regard to case and exactly:
    ["RISCV"] and ["riscv"] resolve to the same entry of [riscv_defs];
    names that are equal up to case resolve alike; a name found matches its
    entry up to case; and a name that matches no entry, such as ["bogus"],
    makes the lookup return no model and [cpu_riscv_init] return failure. *)
Theorem C8_model_lookup (TARGET_LONG_BITS : Z) (TARGET_RISCV64 : bool)
    (object_new_RISCV_CPU : RISCVCPU) (set_realized : RISCVCPU -> RISCVCPU)
    (PRV_M : Z) (CSR_MISA : nat) (name : string) :
  (forall d, In d (riscv_defs TARGET_LONG_BITS TARGET_RISCV64) ->
             lower_c_string name <> lower_c_string (def_name d)) ->
  let find := cpu_riscv_find_by_name TARGET_LONG_BITS TARGET_RISCV64 in
  let init := cpu_riscv_init TARGET_LONG_BITS TARGET_RISCV64
                object_new_RISCV_CPU set_realized PRV_M CSR_MISA in
  find "RISCV"%string = find "riscv"%string /\
  (exists d, find "riscv"%string = Some (0%nat, d) /\
             nth_error (riscv_defs TARGET_LONG_BITS TARGET_RISCV64) 0 = Some d /\
             def_name d = "riscv"%string) /\
  (forall a b, lower_c_string a = lower_c_string b -> find a = find b) /\
  (forall a i d, find a = Some (i, d) ->
     nth_error (riscv_defs TARGET_LONG_BITS TARGET_RISCV64) i = Some d /\
     lower_c_string a = lower_c_string (def_name d)) /\
  find "bogus"%string = None /\ init "bogus"%string = None /\
  find name = None /\ init name = None.
Proof.
  intros Hno find init. subst find init.
  split; [reflexivity|].
  split; [eexists; split; [reflexivity|split; reflexivity]|].
  split; [intros a b Hab; now apply find_by_name_from_lower|].
  split.
  { intros a i d H. apply find_by_name_from_some in H.
    destruct H as (_ & Hnth & Hlow). rewrite Nat.sub_0_r in Hnth. auto. }
  split; [reflexivity|]. split; [reflexivity|].
  assert (Hf : cpu_riscv_find_by_name TARGET_LONG_BITS TARGET_RISCV64 name = None)
    by (apply find_by_name_from_none; exact Hno).
  split; [exact Hf|]. unfold cpu_riscv_init. now rewrite Hf.
Qed.

(** ** Properties of the register file and of state restoration *)

Lemma array_store_head {A} (a : list A) (i : nat) (v d : A) :
  i <> O -> nth 0 (array_store a i v) d = nth 0 a d.
Proof. destruct a, i; cbn; congruence. Qed.

(** C10.  [restore_state_to_opc] stores [data[0]] in [env->PC] and leaves
    every other field of the CPU state as it was. *)
Theorem C10_restore_state_frame (e : CPURISCVState) (tb : TranslationBlock)
    (d0 : Z) (rest : list Z) :
  exists e',
    restore_state_to_opc e tb (d0 :: rest) = Some e' /\
    PC e' = d0 /\
    gpr e' = gpr e /\ fpr e' = fpr e /\ env_load_res e' = env_load_res e /\
    csr e' = csr e /\ priv e' = priv e /\ cpu_model e' = cpu_model e /\
    fp_status e' = fp_status e.
Proof.
  eexists. split; [reflexivity|]. cbn. repeat split.
Qed.

(** ** Properties of the state dump *)

Lemma length_append (a b : string) :
  String.length (a ++ b) = (String.length a + String.length b)%nat.
Proof. induction a as [|c a IH]; cbn; [reflexivity|now rewrite IH]. Qed.

Lemma count_newlines_append (a b : string) :
  count_newlines (a ++ b) = (count_newlines a + count_newlines b)%nat.
Proof.
  induction a as [|c a IH]; cbn; [reflexivity|]. rewrite IH. lia.
Qed.

Lemma nth_all {A} (P : A -> Prop) (l : list A) (d : A) (n : nat) :
  Forall P l -> P d -> P (nth n l d).
Proof.
  intros Hl Hd. revert n. induction Hl as [|x l Hx Hl IH]; intros [|n]; cbn; auto.
Qed.

Lemma hex_digit_not_newline (d : Z) : Ascii.eqb (hex_digit d) "010" = false.
Proof.
  unfold hex_digit.
  apply (nth_all (fun c => Ascii.eqb c "010" = false));
    [repeat constructor|reflexivity].
Qed.

Lemma length_hex_fixed (n : nat) (v : Z) : String.length (hex_fixed n v) = n.
Proof.
  revert v. induction n as [|n IH]; intros v; [reflexivity|].
  cbn [hex_fixed]. rewrite length_append, IH. cbn. lia.
Qed.

Lemma count_newlines_hex_fixed (n : nat) (v : Z) :
  count_newlines (hex_fixed n v) = 0%nat.
Proof.
  revert v. induction n as [|n IH]; intros v; [reflexivity|].
  cbn [hex_fixed]. rewrite count_newlines_append, IH.
  cbn [count_newlines]. now rewrite hex_digit_not_newline.
Qed.

Lemma length_written (calls : list string) :
  String.length (written calls) = list_sum (map String.length calls).
Proof.
  induction calls as [|c calls IH]; [reflexivity|].
  cbn [written fold_right map list_sum]. rewrite length_append.
  unfold written in IH. now rewrite IH.
Qed.

Lemma count_newlines_written (calls : list string) :
  count_newlines (written calls) = list_sum (map count_newlines calls).
Proof.
  induction calls as [|c calls IH]; [reflexivity|].
  cbn [written fold_right map list_sum]. rewrite count_newlines_append.
  unfold written in IH. now rewrite IH.
Qed.

Lemma list_sum_map_flat_map {A B} (f : B -> nat) (g : A -> list B) (l : list A) :
  list_sum (map f (flat_map g l))
  = list_sum (map (fun i => list_sum (map f (g i))) l).
Proof.
  induction l as [|x l IH]; [reflexivity|].
  cbn [flat_map map list_sum]. now rewrite map_app, list_sum_app, IH.
Qed.

Lemma list_sum_map_plus {A} (a : A -> nat) (w : nat) (l : list A) :
  list_sum (map (fun i => (a i + w)%nat) l)
  = (list_sum (map a l) + List.length l * w)%nat.
Proof.
  induction l as [|x l IH]; [reflexivity|].
  cbn [map List.length]. unfold list_sum in *. cbn [fold_right].
  rewrite IH. lia.
Qed.

Lemma count_newlines_regname (i : nat) :
  count_newlines (nth i regnames EmptyString) = 0%nat.
Proof.
  apply (nth_all (fun n => count_newlines n = 0%nat));
    [repeat constructor|reflexivity].
Qed.

Lemma count_newlines_fpr_regname (i : nat) :
  count_newlines (nth i fpr_regnames EmptyString) = 0%nat.
Proof.
  apply (nth_all (fun n => count_newlines n = 0%nat));
    [repeat constructor|reflexivity].
Qed.

Section DumpFacts.

Variable TARGET_LONG_BITS : Z.
Variable e : CPURISCVState.

Let W : nat := Z.to_nat (TARGET_LONG_BITS / 4).

Lemma count_newlines_dump_gpr (i : nat) :
  list_sum (map count_newlines (dump_gpr TARGET_LONG_BITS e i))
  = if Nat.eqb (Nat.land i 3) 3 then 1%nat else 0%nat.
Proof.
  unfold dump_gpr, TARGET_FMT_lx. cbn [map list_sum].
  rewrite !count_newlines_append, count_newlines_hex_fixed,
    count_newlines_regname.
  destruct (Nat.eqb (Nat.land i 3) 3); reflexivity.
Qed.

Lemma count_newlines_dump_fpr (i : nat) :
  list_sum (map count_newlines (dump_fpr e i))
  = if Nat.eqb (Nat.land i 3) 3 then 1%nat else 0%nat.
Proof.
  unfold dump_fpr. rewrite !map_app, !list_sum_app. cbn [map list_sum].
  rewrite !count_newlines_append, count_newlines_hex_fixed,
    count_newlines_fpr_regname.
  assert (Hh : count_newlines ("FPR" ++ dec2 i ++ ":") = 0%nat).
  { rewrite !count_newlines_append. unfold dec2. cbn [count_newlines].
    rewrite !hex_digit_not_newline. reflexivity. }
  destruct (Nat.eqb (Nat.land i 3) 0); destruct (Nat.eqb (Nat.land i 3) 3);
    cbn [map list_sum]; rewrite ?Hh; reflexivity.
Qed.

Lemma count_newlines_dump_csr (name : string) (index : nat) :
  count_newlines name = 0%nat ->
  count_newlines (dump_csr TARGET_LONG_BITS e name index) = 1%nat.
Proof.
  intros Hn. unfold dump_csr, TARGET_FMT_lx.
  rewrite !count_newlines_append, count_newlines_hex_fixed, Hn. reflexivity.
Qed.

Lemma length_dump_gpr (i : nat) :
  list_sum (map String.length (dump_gpr TARGET_LONG_BITS e i))
  = ((2 + String.length (nth i regnames EmptyString)
      + (if Nat.eqb (Nat.land i 3) 3 then 1 else 0)) + W)%nat.
Proof.
  unfold dump_gpr, TARGET_FMT_lx. fold W. cbn [map list_sum].
  rewrite !length_append, length_hex_fixed.
  destruct (Nat.eqb (Nat.land i 3) 3); unfold list_sum;
    cbn [map fold_right String.length newline]; lia.
Qed.

Lemma length_dump_fpr (i : nat) :
  list_sum (map String.length (dump_fpr e i))
  = ((if Nat.eqb (Nat.land i 3) 0 then 6 else 0)
     + (18 + String.length (nth i fpr_regnames EmptyString))
     + (if Nat.eqb (Nat.land i 3) 3 then 1 else 0))%nat.
Proof.
  unfold dump_fpr. rewrite !map_app, !list_sum_app. cbn [map list_sum].
  rewrite !length_append, length_hex_fixed.
  destruct (Nat.eqb (Nat.land i 3) 0); destruct (Nat.eqb (Nat.land i 3) 3);
    unfold list_sum; cbn [map fold_right String.length newline];
    rewrite ?length_append; cbn [String.length dec2]; lia.
Qed.

Lemma length_dump_csr (name : string) (index : nat) :
  String.length (dump_csr TARGET_LONG_BITS e name index)
  = (2 + String.length name + W + 1)%nat.
Proof.
  unfold dump_csr, TARGET_FMT_lx. fold W.
  rewrite !length_append, length_hex_fixed. cbn [String.length newline]. lia.
Qed.

End DumpFacts.

(** The dump is 20 lines long whatever the state holds: the PC, eight lines
    of four general-purpose registers, three control and status registers,
    eight lines of four floating-point registers. *)
Theorem dump_has_twenty_lines (TARGET_LONG_BITS : Z)
    (CSR_MSTATUS CSR_MIP CSR_MIE : nat) (e : CPURISCVState) :
  count_newlines
    (written (riscv_cpu_dump_state TARGET_LONG_BITS CSR_MSTATUS CSR_MIP
                                   CSR_MIE e))
  = 20%nat.
Proof.
  rewrite count_newlines_written. unfold riscv_cpu_dump_state.
  rewrite !map_app, !list_sum_app, !list_sum_map_flat_map.
  rewrite (map_ext _ _ (count_newlines_dump_gpr TARGET_LONG_BITS e)).
  rewrite (map_ext _ _ (count_newlines_dump_fpr e)).
  cbn [map list_sum].
  rewrite !count_newlines_dump_csr by reflexivity.
  unfold TARGET_FMT_lx.
  rewrite !count_newlines_append, count_newlines_hex_fixed.
  reflexivity.
Qed.

(** The dump has a fixed layout: its length depends on the width of
    [TARGET_FMT_lx] only, not on the values of the registers. *)
Theorem dump_has_fixed_length (TARGET_LONG_BITS : Z)
    (CSR_MSTATUS CSR_MIP CSR_MIE : nat) (e : CPURISCVState) :
  String.length
    (written (riscv_cpu_dump_state TARGET_LONG_BITS CSR_MSTATUS CSR_MIP
                                   CSR_MIE e))
  = (971 + 36 * Z.to_nat (TARGET_LONG_BITS / 4))%nat.
Proof.
  rewrite length_written. unfold riscv_cpu_dump_state.
  rewrite !map_app, !list_sum_app, !list_sum_map_flat_map.
  rewrite (map_ext _ _ (length_dump_gpr TARGET_LONG_BITS e)).
  rewrite (map_ext _ _ (length_dump_fpr TARGET_LONG_BITS e)).
  rewrite (list_sum_map_plus
             (fun i => (2 + String.length (nth i regnames EmptyString)
                        + (if Nat.eqb (Nat.land i 3) 3 then 1 else 0))%nat)
             (Z.to_nat (TARGET_LONG_BITS / 4))).
  cbn [map list_sum].
  rewrite !length_dump_csr.
  unfold TARGET_FMT_lx.
  rewrite !length_append, length_hex_fixed.
  set (W := Z.to_nat (TARGET_LONG_BITS / 4)).
  assert (Hg : list_sum
                 (map (fun i => (2 + String.length (nth i regnames EmptyString)
                                 + (if Nat.eqb (Nat.land i 3) 3 then 1 else 0))%nat)
                      (seq 0 32)) = 200%nat) by (vm_compute; reflexivity).
  assert (Hf : list_sum
                 (map (fun i => ((if Nat.eqb (Nat.land i 3) 0 then 6 else 0)
                                 + (18 + String.length (nth i fpr_regnames EmptyString))
                                 + (if Nat.eqb (Nat.land i 3) 3 then 1 else 0))%nat)
                      (seq 0 32)) = 732%nat) by (vm_compute; reflexivity).
  rewrite Hg, Hf. rewrite length_seq.
  unfold list_sum. cbn [fold_right String.length newline]. lia.
Qed.

(** ** Further properties of the registry and of [riscv_tcg_init] *)

Lemma find_by_name_from_complete name defs i :
  find_by_name_from name defs i = None <->
  (forall d, In d defs -> lower_c_string name <> lower_c_string (def_name d)).
Proof.
  split; [|apply find_by_name_from_none].
  revert i. induction defs as [|d0 rest IH]; intros i Hnone d Hd;
    [contradiction|].
  cbn in Hnone.
  destruct (strcasecmp name (def_name d0) =? 0) eqn:E; [discriminate|].
  apply Z.eqb_neq in E. destruct Hd as [<-|Hd].
  - now rewrite <- strcasecmp_zero_iff.
  - now apply (IH (S i)).
Qed.

(** The lookup loop returns the first entry of the table whose name equals
    the argument up to case, with its index, and nothing exactly when no
    entry does. *)
Theorem lookup_returns_first_match (name : string) (defs : list riscv_def_t) :
  (find_by_name_from name defs 0 = None <->
   forall d, In d defs -> lower_c_string name <> lower_c_string (def_name d)) /\
  (forall j d, find_by_name_from name defs 0 = Some (j, d) ->
     nth_error defs j = Some d /\
     lower_c_string name = lower_c_string (def_name d) /\
     forall k d', (k < j)%nat -> nth_error defs k = Some d' ->
                  lower_c_string name <> lower_c_string (def_name d')).
Proof.
  split; [apply find_by_name_from_complete|].
  assert (H : forall i j d,
             find_by_name_from name defs i = Some (j, d) ->
             (i <= j)%nat /\ nth_error defs (j - i) = Some d /\
             lower_c_string name = lower_c_string (def_name d) /\
             forall k d', (k < j - i)%nat -> nth_error defs k = Some d' ->
                          lower_c_string name <> lower_c_string (def_name d')).
  { induction defs as [|d0 rest IH]; intros i j d; cbn; [discriminate|].
    destruct (strcasecmp name (def_name d0) =? 0) eqn:E.
    - intros Hs. injection Hs as <- <-. rewrite Nat.sub_diag.
      apply Z.eqb_eq, strcasecmp_zero_iff in E.
      split; [lia|]. split; [reflexivity|]. split; [exact E|].
      intros k d' Hk. lia.
    - intros Hs. apply IH in Hs. destruct Hs as (Hle & Hnth & Hlow & Hfirst).
      apply Z.eqb_neq in E. rewrite strcasecmp_zero_iff in E.
      split; [lia|]. split; [|split; [exact Hlow|]].
      + replace (j - i)%nat with (S (j - S i)) by lia. exact Hnth.
      + intros [|k] d' Hk Hd'.
        * cbn in Hd'. injection Hd' as <-. exact E.
        * cbn in Hd'. apply (Hfirst k d'); [lia|exact Hd']. }
  intros j d Hs. apply H in Hs. rewrite Nat.sub_0_r in Hs. tauto.
Qed.

(** Every model that [riscv_cpu_list] prints can be selected: the list has
    one line per table entry, and the name on each line is found by
    [cpu_riscv_find_by_name] and accepted by [cpu_riscv_init]. *)
Theorem listed_models_can_be_selected (TARGET_LONG_BITS : Z)
    (TARGET_RISCV64 : bool) (object_new_RISCV_CPU : RISCVCPU)
    (set_realized : RISCVCPU -> RISCVCPU) (PRV_M : Z) (CSR_MISA : nat) :
  riscv_cpu_list TARGET_LONG_BITS TARGET_RISCV64
  = map (fun d => ("RISCV '" ++ def_name d ++ "'" ++ newline)%string)
        (riscv_defs TARGET_LONG_BITS TARGET_RISCV64) /\
  forall d, In d (riscv_defs TARGET_LONG_BITS TARGET_RISCV64) ->
    (exists i d',
       cpu_riscv_find_by_name TARGET_LONG_BITS TARGET_RISCV64 (def_name d)
       = Some (i, d') /\
       lower_c_string (def_name d') = lower_c_string (def_name d)) /\
    cpu_riscv_init TARGET_LONG_BITS TARGET_RISCV64 object_new_RISCV_CPU
                   set_realized PRV_M CSR_MISA (def_name d) <> None.
Proof.
  split; [reflexivity|]. intros d Hd.
  destruct (cpu_riscv_find_by_name TARGET_LONG_BITS TARGET_RISCV64 (def_name d))
    as [[i d']|] eqn:E.
  - split.
    + exists i, d'. split; [reflexivity|].
      apply find_by_name_from_some in E. symmetry. apply E.
    + unfold cpu_riscv_init. rewrite E. discriminate.
  - exfalso. unfold cpu_riscv_find_by_name in E.
    rewrite find_by_name_from_complete in E. now apply (E d Hd).
Qed.

Lemma nth_array_store_eq {A} (a : list A) (i : nat) (v d : A) :
  (i < List.length a)%nat -> nth i (array_store a i v) d = v.
Proof.
  revert i. induction a as [|x a IH]; intros [|i] Hi; cbn in *; try lia;
    [reflexivity|]. apply IH. lia.
Qed.

Lemma nth_array_store_ne {A} (a : list A) (i j : nat) (v d : A) :
  i <> j -> nth j (array_store a i v) d = nth j a d.
Proof.
  revert i j. induction a as [|x a IH]; intros [|i] [|j] Hij; cbn;
    try reflexivity; try congruence.
  apply IH. congruence.
Qed.

Lemma length_array_store {A} (a : list A) (i : nat) (v : A) :
  List.length (array_store a i v) = List.length a.
Proof.
  revert i. induction a as [|x a IH]; intros [|i]; cbn; try reflexivity.
  now rewrite IH.
Qed.

(** A successful [cpu_riscv_init]: the CPU handed to the "realized" step
    has the looked-up model, privilege [PRV_M], and 4096 control and status
    registers that are all zero except [csr[CSR_MISA]], which holds the
    model's [init_misa_reg]; its registers and PC are those of the new
    object; the CPU returned is the realized one with the default-NaN mode
    switched on. *)
Theorem cpu_riscv_init_state (TARGET_LONG_BITS : Z) (TARGET_RISCV64 : bool)
    (object_new_RISCV_CPU : RISCVCPU) (set_realized : RISCVCPU -> RISCVCPU)
    (PRV_M : Z) (CSR_MISA : nat) (name : string) (i : nat) (def : riscv_def_t) :
  cpu_riscv_find_by_name TARGET_LONG_BITS TARGET_RISCV64 name = Some (i, def) ->
  (CSR_MISA < 4096)%nat ->
  exists cpu0,
    cpu_riscv_init TARGET_LONG_BITS TARGET_RISCV64 object_new_RISCV_CPU
                   set_realized PRV_M CSR_MISA name
    = Some (mkCPU (parent_obj (set_realized cpu0))
                  (let e := env (set_realized cpu0) in
                   mkEnv (gpr e) (fpr e) (PC e) (env_load_res e) (csr e)
                         (priv e) (cpu_model e) (mk_float_status 1))) /\
    parent_obj cpu0 = parent_obj object_new_RISCV_CPU /\
    cpu_model (env cpu0) = Some def /\
    priv (env cpu0) = PRV_M /\
    List.length (csr (env cpu0)) = 4096%nat /\
    nth CSR_MISA (csr (env cpu0)) 0 = init_misa_reg def mod 2 ^ TARGET_LONG_BITS /\
    (forall k, k <> CSR_MISA -> nth k (csr (env cpu0)) 0 = 0) /\
    gpr (env cpu0) = gpr (env object_new_RISCV_CPU) /\
    fpr (env cpu0) = fpr (env object_new_RISCV_CPU) /\
    PC (env cpu0) = PC (env object_new_RISCV_CPU).
Proof.
  intros Hfind Hmisa. unfold cpu_riscv_init. rewrite Hfind.
  eexists. split; [reflexivity|]. cbn [parent_obj env cpu_model priv csr gpr fpr PC].
  split; [reflexivity|]. split; [reflexivity|]. split; [reflexivity|].
  split; [rewrite length_array_store; apply repeat_length|].
  split; [apply nth_array_store_eq; rewrite repeat_length; exact Hmisa|].
  split; [|repeat split].
  intros k Hk. rewrite nth_array_store_ne by congruence.
  apply nth_repeat.
Qed.

(** [riscv_tcg_init] runs once: a second call changes nothing. *)
Theorem riscv_tcg_init_idempotent (st : tcg_statics) :
  riscv_tcg_init (riscv_tcg_init st) = riscv_tcg_init st.
Proof.
  destruct (st_inited st =? 0) eqn:E.
  - assert (H : st_inited (riscv_tcg_init st) = 1)
      by (unfold riscv_tcg_init; rewrite E; reflexivity).
    remember (riscv_tcg_init st) as st' eqn:Hst'.
    unfold riscv_tcg_init. rewrite H. reflexivity.
  - assert (H : riscv_tcg_init st = st)
      by (unfold riscv_tcg_init; rewrite E; reflexivity).
    now rewrite !H.
Qed.

Lemma list_of_length_32 {A} (l : list A) :
  List.length l = 32%nat ->
  exists x0 x1 x2 x3 x4 x5 x6 x7 x8 x9 x10 x11 x12 x13 x14 x15
         x16 x17 x18 x19 x20 x21 x22 x23 x24 x25 x26 x27 x28 x29 x30 x31,
    l = [x0; x1; x2; x3; x4; x5; x6; x7; x8; x9; x10; x11; x12; x13; x14; x15;
         x16; x17; x18; x19; x20; x21; x22; x23; x24; x25; x26; x27; x28; x29;
         x30; x31].
Proof.
  intros H.
  do 32 (destruct l as [|? l]; [discriminate H|]).
  destruct l; [|discriminate H].
  repeat eexists.
Qed.

(** The first call of [riscv_tcg_init] binds every register to its own
    storage and name, whatever the handles held before: [cpu_gpr[i]] to
    [env->gpr[i]] under [regnames[i]] for 1 <= i <= 31, [cpu_fpr[i]] to
    [env->fpr[i]] under [fpr_regnames[i]] for 0 <= i <= 31, [cpu_PC] and
    [load_res] to their fields; [cpu_gpr[0]] names no value; and no two
    globals share a field. *)
Theorem riscv_tcg_init_bindings (st : tcg_statics) :
  st_inited st = 0 ->
  List.length (st_cpu_gpr st) = 32%nat ->
  List.length (st_cpu_fpr st) = 32%nat ->
  let st' := riscv_tcg_init st in
  st_inited st' = 1 /\
  nth 0 (st_cpu_gpr st') None = None /\
  (forall i, (1 <= i < 32)%nat ->
     nth i (st_cpu_gpr st') None
     = Some (mk_tcg_global (field_gpr i) (nth i regnames EmptyString))) /\
  (forall i, (i < 32)%nat ->
     nth i (st_cpu_fpr st') None
     = Some (mk_tcg_global (field_fpr i) (nth i fpr_regnames EmptyString))) /\
  st_cpu_PC st' = Some (mk_tcg_global field_PC "PC") /\
  st_load_res st' = Some (mk_tcg_global field_load_res "load_res") /\
  List.length (tcg_globals_of st') = 65%nat /\
  NoDup (map glob_field (tcg_globals_of st')).
Proof.
  intros Hi Hg Hf.
  destruct (list_of_length_32 _ Hg)
    as (g0 & g1 & g2 & g3 & g4 & g5 & g6 & g7 & g8 & g9 & g10 & g11 & g12
        & g13 & g14 & g15 & g16 & g17 & g18 & g19 & g20 & g21 & g22 & g23
        & g24 & g25 & g26 & g27 & g28 & g29 & g30 & g31 & Eg).
  destruct (list_of_length_32 _ Hf)
    as (f0 & f1 & f2 & f3 & f4 & f5 & f6 & f7 & f8 & f9 & f10 & f11 & f12
        & f13 & f14 & f15 & f16 & f17 & f18 & f19 & f20 & f21 & f22 & f23
        & f24 & f25 & f26 & f27 & f28 & f29 & f30 & f31 & Ef).
  cbv zeta. unfold riscv_tcg_init, tcg_globals_of. rewrite Hi, Eg, Ef.
  cbn [Z.eqb negb st_inited st_cpu_gpr st_cpu_fpr st_cpu_PC st_load_res].
  cbn [seq fold_left array_store nth regnames fpr_regnames flat_map app].
  split; [reflexivity|]. split; [reflexivity|]. split.
  { intros i Hr.
    do 32 (destruct i as [|i]; [first [reflexivity | lia]|]). lia. }
  split.
  { intros i Hr.
    do 32 (destruct i as [|i]; [reflexivity|]). lia. }
  split; [reflexivity|]. split; [reflexivity|]. split; [reflexivity|].
  cbn [map glob_field].
  repeat (constructor;
          [cbn [In]; intros H;
           repeat (destruct H as [H|H]; [discriminate H|]); exact H|]).
  constructor.
Qed.

(** ** Register 0 *)

(** The first call of [riscv_tcg_init] overwrites every handle, so its
    result does not depend on what the tables held before. *)
Lemma riscv_tcg_init_first_call (st : tcg_statics) :
  st_inited st = 0 ->
  List.length (st_cpu_gpr st) = 32%nat ->
  List.length (st_cpu_fpr st) = 32%nat ->
  riscv_tcg_init st = riscv_tcg_init tcg_statics_init.
Proof.
  intros Hi Hg Hf.
  destruct (list_of_length_32 _ Hg)
    as (g0 & g1 & g2 & g3 & g4 & g5 & g6 & g7 & g8 & g9 & g10 & g11 & g12
        & g13 & g14 & g15 & g16 & g17 & g18 & g19 & g20 & g21 & g22 & g23
        & g24 & g25 & g26 & g27 & g28 & g29 & g30 & g31 & Eg).
  destruct (list_of_length_32 _ Hf)
    as (f0 & f1 & f2 & f3 & f4 & f5 & f6 & f7 & f8 & f9 & f10 & f11 & f12
        & f13 & f14 & f15 & f16 & f17 & f18 & f19 & f20 & f21 & f22 & f23
        & f24 & f25 & f26 & f27 & f28 & f29 & f30 & f31 & Ef).
  unfold riscv_tcg_init. rewrite Hi, Eg, Ef. reflexivity.
Qed.

Lemma initialised_no_gpr0_global :
  existsb binds_gpr0 (tcg_globals_of (riscv_tcg_init tcg_statics_init)) = false.
Proof. reflexivity. Qed.

Lemma nth_some_in {A} (n : nat) (l : list (option A)) (g : A) :
  nth n l None = Some g -> In (Some g) l.
Proof.
  revert n. induction l as [|x l IH]; intros [|n] H; cbn in *;
    try discriminate; [now left|right; eauto].
Qed.

Lemma global_of_in (st : tcg_statics) (t : TCGv) (g : tcg_global) :
  global_of st t = Some g -> In g (tcg_globals_of st).
Proof.
  unfold tcg_globals_of. cbv zeta. rewrite !in_app_iff.
  destruct t as [i|i| |]; cbn [global_of].
  - destruct (i <? 0); [discriminate|]. intros H. left.
    apply in_flat_map. exists (Some g).
    split; [eapply nth_some_in; exact H|now left].
  - destruct (i <? 0); [discriminate|]. intros H. right. left.
    apply in_flat_map. exists (Some g).
    split; [eapply nth_some_in; exact H|now left].
  - intros ->. right. right. left. now left.
  - intros ->. right. right. right. now left.
Qed.

Lemma store_field_keeps_gpr0 (g : tcg_global) (v : Z) (e : CPURISCVState) :
  binds_gpr0 g = false ->
  nth 0 (gpr (store_field (glob_field g) v e)) 0 = nth 0 (gpr e) 0.
Proof.
  unfold binds_gpr0. destruct (glob_field g) as [[|i]|i| |]; intros H;
    try discriminate; cbn [store_field set_gpr gpr]; try reflexivity.
  now apply array_store_head.
Qed.

(** No operation, whatever handle it names, stores to [env->gpr[0]]. *)
Lemma exec_op_keeps_gpr0 (o : tcg_op) (e e' : CPURISCVState) :
  exec_op (riscv_tcg_init tcg_statics_init) o e = Some e' ->
  nth 0 (gpr e') 0 = nth 0 (gpr e) 0.
Proof.
  destruct o; cbn [exec_op]; try (intros H; injection H as <-; reflexivity).
  destruct (global_of (riscv_tcg_init tcg_statics_init) dst) as [g|] eqn:Eg;
    [|discriminate].
  intros H. injection H as <-. apply store_field_keeps_gpr0.
  destruct (binds_gpr0 g) eqn:Eb; [|reflexivity].
  pose proof initialised_no_gpr0_global as Hno.
  assert (Hex : existsb binds_gpr0
                  (tcg_globals_of (riscv_tcg_init tcg_statics_init)) = true).
  { apply existsb_exists. exists g. split; [|exact Eb].
    eapply global_of_in. exact Eg. }
  rewrite Hex in Hno. discriminate Hno.
Qed.

Lemma exec_ops_keeps_gpr0 (ops : list tcg_op) :
  forall e e',
    exec_ops (riscv_tcg_init tcg_statics_init) ops e = Some e' ->
    nth 0 (gpr e') 0 = nth 0 (gpr e) 0.
Proof.
  induction ops as [|o ops IH]; intros e e' H; cbn [exec_ops] in H.
  - now injection H as <-.
  - destruct (exec_op (riscv_tcg_init tcg_statics_init) o e) as [e1|] eqn:E1;
      [|discriminate].
    rewrite (IH _ _ H). eapply exec_op_keeps_gpr0. exact E1.
Qed.

Lemma writeRegister_keeps_gpr0 (e : CPURISCVState) (index : nat) (value : Z) :
  nth 0 (gpr (writeRegister e index value)) 0 = nth 0 (gpr e) 0.
Proof.
  destruct index; [reflexivity|].
  cbn [writeRegister set_gpr gpr]. now apply array_store_head.
Qed.

Lemma writeRegisters_keeps_gpr0 (ws : list (nat * Z)) (e : CPURISCVState) :
  nth 0 (gpr (writeRegisters e ws)) 0 = nth 0 (gpr e) 0.
Proof.
  revert e. induction ws as [|w ws IH]; intros e; [reflexivity|].
  cbn. unfold writeRegisters in IH. rewrite IH.
  apply writeRegister_keeps_gpr0.
Qed.

(** C9.  Register 0 is hard-wired to zero and never written.
    - The source: the first call of [riscv_tcg_init], whatever handles the
      tables held, leaves [cpu_gpr[0]] without a TCG value, binds
      [cpu_gpr[1..31]] to their own storage, and binds no global to the
      storage of register 0; no operation of a build writes a
      general-purpose register.
    - The operations: a [movi] aimed at the handle of register 0 cannot
      run, and running any operations whatever leaves [env->gpr[0]] as it
      was; the generated write of register [i >= 1] does what
      [writeRegister] says, the generated write of register 0 is empty.
    - The accessors: a write to register 0 changes nothing, any run of
      writes leaves the storage of register 0 untouched, and a read of
      register 0 after it yields zero, whatever the state held; a write to
      another register is read back. *)
Theorem C9_register_zero_hardwired (TARGET_LONG_BITS TARGET_PAGE_BITS : Z)
    (CONFIG_USER_ONLY : bool) (CF_COUNT_MASK CF_LAST_IO TCG_MAX_INSNS : Z)
    (tcg_op_buf_full : list tcg_op -> bool) (singlestep : Z)
    (cpu_ldl_code : CPURISCVState -> Z -> Z)
    (cpu_mmu_index : CPURISCVState -> bool -> Z)
    (cpu : RISCVCPU) (tb : TranslationBlock) (st : tcg_statics)
    (e : CPURISCVState) (ops : list tcg_op) (ws : list (nat * Z)) (value : Z) :
  target_ok TARGET_LONG_BITS TARGET_PAGE_BITS ->
  0 <= tb_pc tb < 2 ^ TARGET_LONG_BITS ->
  st_inited st = 0 ->
  List.length (st_cpu_gpr st) = 32%nat ->
  List.length (st_cpu_fpr st) = 32%nat ->
  let st' := riscv_tcg_init st in
  nth 0 (st_cpu_gpr st') None = None /\
  (forall i, (1 <= i < 32)%nat ->
     nth i (st_cpu_gpr st') None
     = Some (mk_tcg_global (field_gpr i) (nth i regnames EmptyString))) /\
  existsb binds_gpr0 (tcg_globals_of st') = false /\
  (exists r,
     gen_intermediate_code TARGET_LONG_BITS TARGET_PAGE_BITS CONFIG_USER_ONLY
       CF_COUNT_MASK CF_LAST_IO TCG_MAX_INSNS tcg_op_buf_full singlestep
       cpu_ldl_code cpu_mmu_index cpu tb = Some r /\
     existsb writes_gpr (op_buf (res_state r)) = false) /\
  exec_op st' (op_movi_tl (cpu_gpr 0) value) e = None /\
  (forall e', exec_ops st' ops e = Some e' ->
     nth 0 (gpr e') 0 = nth 0 (gpr e) 0 /\ readRegister e' 0 = 0) /\
  op_buf (snd (gen_set_gpr_imm 0 value empty_gen_state)) = [] /\
  (forall i, (1 <= i < 32)%nat ->
     exec_ops st' (op_buf (snd (gen_set_gpr_imm i value empty_gen_state))) e
     = Some (writeRegister e i value)) /\
  writeRegister e 0 value = e /\
  readRegister (writeRegister e 0 value) 0 = 0 /\
  readRegister (writeRegisters e ws) 0 = 0 /\
  nth 0 (gpr (writeRegisters e ws)) 0 = nth 0 (gpr e) 0 /\
  (forall i, (1 <= i < List.length (gpr e))%nat ->
     readRegister (writeRegister e i value) i = value).
Proof.
  intros Hok Hpc Hi Hg Hf. cbv zeta.
  rewrite (riscv_tcg_init_first_call st Hi Hg Hf).
  split; [reflexivity|]. split.
  { intros i Hr.
    do 32 (destruct i as [|i]; [first [reflexivity | lia]|]). lia. }
  split; [exact initialised_no_gpr0_global|]. split.
  { destruct (gen_intermediate_code_ops TARGET_LONG_BITS TARGET_PAGE_BITS
                CONFIG_USER_ONLY CF_COUNT_MASK CF_LAST_IO TCG_MAX_INSNS
                tcg_op_buf_full singlestep cpu_ldl_code cpu_mmu_index
                cpu tb Hok Hpc)
      as (r & _ & Hrun & _ & Hw & _).
    exists r. split; assumption. }
  split; [reflexivity|]. split.
  { intros e' He'. split; [|reflexivity].
    eapply exec_ops_keeps_gpr0. exact He'. }
  split; [reflexivity|]. split.
  { intros i Hr.
    do 32 (destruct i as [|i]; [first [lia | reflexivity]|]). lia. }
  split; [reflexivity|]. split; [reflexivity|]. split; [reflexivity|].
  split; [apply writeRegisters_keeps_gpr0|].
  intros [|i] Hr; [lia|].
  cbn [readRegister writeRegister set_gpr gpr].
  now apply nth_array_store_eq.
Qed.

(** ** The claims on the concrete target *)

Local Abbreviation rv64_gen_intermediate_code :=
  (gen_intermediate_code 64 12 false 32767 32768 512 buf_never_full 0
     nop_memory mmu_index_of_priv).

Lemma rv64_target_ok : target_ok 64 12.
Proof. unfold target_ok. lia. Defined.

(** A breakpoint at the start address 0x1000 of a block. *)
Lemma C1_witness :
  target_ok 64 12 /\
  cpu_breakpoint_test (parent_obj (rv64_cpu 0 [4096])) (tb_pc (tb_at 4096 0))
  = true /\
  exists r,
    rv64_gen_intermediate_code (rv64_cpu 0 [4096]) (tb_at 4096 0) = Some r /\
    code_loads (res_state r) = [] /\
    tb_icount (res_tb r) = 1 /\
    tb_size (res_tb r) = 4 /\
    debug_trap_target (op_buf (res_state r)) = Some 4096.
Proof.
  split; [exact rv64_target_ok|]. split; [reflexivity|].
  destruct (C1_breakpoint_at_block_start 64 12 false 32767 32768 512
              buf_never_full 0 nop_memory mmu_index_of_priv
              (rv64_cpu 0 [4096]) (tb_at 4096 0) rv64_target_ok eq_refl)
    as (r & Hrun & Hloads & Hicount & Hsize & _ & Htrap & _).
  exists r. repeat split; assumption.
Defined.

(** The claim as stated fails there: [icount] is 1, not 0, and the debug
    exception is raised with the PC at 0x1000, not 0x1004. *)
Lemma C1_counterexample :
  exists r,
    rv64_gen_intermediate_code (rv64_cpu 0 [4096]) (tb_at 4096 0) = Some r /\
    tb_icount (res_tb r) = 1 /\
    debug_trap_target (op_buf (res_state r)) = Some 4096 /\
    ~ (tb_icount (res_tb r) = 0 /\
       debug_trap_target (op_buf (res_state r)) = Some (4096 + 4)).
Proof.
  eexists. split; [vm_compute; reflexivity|].
  split; [reflexivity|]. split; [reflexivity|].
  intros [H _]. discriminate H.
Qed.

(** A system-emulation build, single-stepping off, same page: chained. *)
Lemma C2_witness :
  0 <= 12 /\
  use_goto_tb 12 false (mkCtx (tb_at 4096 0) 4100 19 0 3 BS_STOP) 4100 = true /\
  gen_goto_tb 12 false (mkCtx (tb_at 4096 0) 4100 19 0 3 BS_STOP) 0 4100
              empty_gen_state
  = (tt, mkGenState [op_goto_tb 0; op_movi_tl cpu_PC 4100; op_exit_tb (Some 0)]
                    []).
Proof.
  split; [lia|]. split; [reflexivity|].
  apply (C2_gen_goto_tb_forms 12 false
           (mkCtx (tb_at 4096 0) 4100 19 0 3 BS_STOP) 0 4100 empty_gen_state).
  - lia.
  - reflexivity.
Defined.

(** The claim as stated fails in a user-only build: with single-stepping
    off, a destination on another page (0x1000 from a block at 0) still
    gets the chained form. *)
Lemma C2_counterexample :
  ~ (has_chained_exit
       (op_buf (snd (gen_goto_tb 12 true (mkCtx (tb_at 0 0) 0 0 0 0 BS_STOP)
                                 0 4096 empty_gen_state))) = true
     <-> ctx_singlestep_enabled (mkCtx (tb_at 0 0) 0 0 0 0 BS_STOP) = 0 /\
         same_guest_page 12 (tb_pc (ctx_tb (mkCtx (tb_at 0 0) 0 0 0 0 BS_STOP)))
                         4096).
Proof.
  intros [H _]. specialize (H eq_refl). destruct H as [_ H].
  unfold same_guest_page in H. vm_compute in H. discriminate H.
Qed.

(** Three instructions up to the end of the page at 0x2000. *)
Lemma C3_witness :
  target_ok 64 12 /\ 0 <= tb_pc (tb_at 8180 0) < 2 ^ 64 /\
  exists r,
    rv64_gen_intermediate_code (rv64_cpu 0 []) (tb_at 8180 0) = Some r /\
    tb_size (res_tb r) = 4 * tb_icount (res_tb r) /\
    ctx_pc (res_ctx r) = target_ulong 64 (8180 + tb_size (res_tb r)).
Proof.
  assert (Hpc : 0 <= tb_pc (tb_at 8180 0) < 2 ^ 64) by (cbn; lia).
  split; [exact rv64_target_ok|]. split; [exact Hpc|].
  destruct (C3_size_is_four_times_icount 64 12 false 32767 32768 512
              buf_never_full 0 nop_memory mmu_index_of_priv
              (rv64_cpu 0 []) (tb_at 8180 0) rv64_target_ok Hpc)
    as (r & Hrun & _ & Hsize & Hend & _).
  exists r. repeat split; assumption.
Defined.

Lemma C4_witness :
  target_ok 64 12 /\ 0 <= tb_pc (tb_at 8180 0) < 2 ^ 64 /\
  0 < 32767 /\ 0 < 512 /\
  exists r,
    rv64_gen_intermediate_code (rv64_cpu 0 []) (tb_at 8180 0) = Some r /\
    tb_icount (res_tb r) <= max_insns_of 32767 512 (tb_at 8180 0) /\
    forall a, In a (code_loads (res_state r)) ->
              same_guest_page 12 a (tb_pc (tb_at 8180 0)).
Proof.
  assert (Hpc : 0 <= tb_pc (tb_at 8180 0) < 2 ^ 64) by (cbn; lia).
  assert (Hcm : 0 < 32767) by lia.
  assert (Htm : 0 < 512) by lia.
  split; [exact rv64_target_ok|]. split; [exact Hpc|].
  split; [exact Hcm|]. split; [exact Htm|].
  destruct (C4_budget_and_page_bound 64 12 false 32767 32768 512
              buf_never_full 0 nop_memory mmu_index_of_priv
              (rv64_cpu 0 []) (tb_at 8180 0) rv64_target_ok Hpc Hcm Htm)
    as (r & Hrun & Hcount & _ & Hloads).
  exists r. split; [exact Hrun|]. split; [exact Hcount|].
  intros a Ha. exact (proj1 (Hloads a Ha)).
Defined.

(** Single-stepping on: one instruction, then the PC write and the debug
    exception. *)
Lemma C5_witness :
  target_ok 64 12 /\ 0 <= tb_pc (tb_at 4096 0) < 2 ^ 64 /\
  cs_singlestep_enabled (parent_obj (rv64_cpu 1 [])) <> 0 /\
  block_exit 12 false (parent_obj (rv64_cpu 1 []))
             (mkCtx (tb_at 4096 0) 4100 19 1 3 BS_NONE) initial_state
  = (tt, mkGenState [op_tb_start; op_movi_tl cpu_PC 4100;
                     op_raise_exception_debug] []).
Proof.
  assert (Hpc : 0 <= tb_pc (tb_at 4096 0) < 2 ^ 64) by (cbn; lia).
  assert (Hss : cs_singlestep_enabled (parent_obj (rv64_cpu 1 [])) <> 0)
    by (cbn; lia).
  split; [exact rv64_target_ok|]. split; [exact Hpc|]. split; [exact Hss|].
  apply (C5_debug_mode_exit 64 12 false 32767 32768 512 buf_never_full 0
           nop_memory mmu_index_of_priv (rv64_cpu 1 []) (tb_at 4096 0)
           (mkCtx (tb_at 4096 0) 4100 19 1 3 BS_NONE) initial_state
           rv64_target_ok Hpc Hss).
  cbn. discriminate.
Defined.

(** Single-stepping off, loop left at the end of the page. *)
Lemma C6_witness :
  target_ok 64 12 /\ 0 <= tb_pc (tb_at 8180 0) < 2 ^ 64 /\
  cs_singlestep_enabled (parent_obj (rv64_cpu 0 [])) = 0 /\
  block_exit 12 false (parent_obj (rv64_cpu 0 []))
             (mkCtx (tb_at 8180 0) 8192 19 0 3 BS_NONE) initial_state
  = (tt, mkGenState [op_tb_start; op_movi_tl cpu_PC 8192; op_exit_tb None] []).
Proof.
  assert (Hpc : 0 <= tb_pc (tb_at 8180 0) < 2 ^ 64) by (cbn; lia).
  split; [exact rv64_target_ok|]. split; [exact Hpc|]. split; [reflexivity|].
  apply (C6_open_timeout_exit 64 12 false 32767 32768 512 buf_never_full 0
           nop_memory mmu_index_of_priv (rv64_cpu 0 []) (tb_at 8180 0)
           (mkCtx (tb_at 8180 0) 8192 19 0 3 BS_NONE) initial_state
           rv64_target_ok Hpc eq_refl).
  reflexivity.
Defined.

(** The last instruction of a page with the global [singlestep] set as
    well: the page test comes first. *)
Lemma C7_witness :
  cpu_breakpoint_test (parent_obj (rv64_cpu 0 [])) 8188 = false /\
  ctx_bstate (mkCtx (tb_at 8180 0) 8188 19 0 3 BS_NONE) = BS_NONE /\
  exists ctx' s',
    ctx_pc ctx' = target_ulong 64 (8188 + 4) /\
    ctx_bstate ctx' = BS_NONE /\
    translate_loop 64 32768 buf_never_full 1 nop_memory 1
      (rv64_cpu 0 []) (tb_at 8180 0) 8192 512
      (mkCtx (tb_at 8180 0) 8188 19 0 3 BS_NONE) 2 initial_state
    = Some (Exit_break Stop_next_page, ctx', 3, s').
Proof.
  split; [reflexivity|]. split; [reflexivity|].
  destruct (C7_termination_order 64 32768 buf_never_full 1 nop_memory
              (rv64_cpu 0 []) (tb_at 8180 0) 8192 512
              (mkCtx (tb_at 8180 0) 8188 19 0 3 BS_NONE) 2 initial_state
              0%nat eq_refl eq_refl)
    as (ctx' & s' & Hpc & Hbs & _ & _ & Hloop).
  exists ctx', s'. split; [exact Hpc|]. split; [exact Hbs|].
  rewrite Hloop. cbn [termination_predicates first_match].
  rewrite Hpc. reflexivity.
Defined.

Lemma C8_witness :
  (forall d, In d (riscv_defs 64 true) ->
             lower_c_string "bogus" <> lower_c_string (def_name d)) /\
  cpu_riscv_find_by_name 64 true "RISCV" = cpu_riscv_find_by_name 64 true "riscv" /\
  cpu_riscv_find_by_name 64 true "bogus" = None /\
  cpu_riscv_init 64 true (rv64_cpu 0 []) (fun c => c) 3 3856 "bogus" = None.
Proof.
  assert (Hno : forall d, In d (riscv_defs 64 true) ->
                  lower_c_string "bogus" <> lower_c_string (def_name d)).
  { intros d [<-|[]]. cbn. discriminate. }
  split; [exact Hno|].
  destruct (C8_model_lookup 64 true (rv64_cpu 0 []) (fun c => c) 3 3856
              "bogus" Hno)
    as (Hsame & _ & _ & _ & _ & _ & Hfind & Hinit).
  split; [exact Hsame|]. split; [exact Hfind|exact Hinit].
Defined.

Lemma C9_witness :
  target_ok 64 12 /\ 0 <= tb_pc (tb_at 4096 0) < 2 ^ 64 /\
  st_inited stale_statics = 0 /\
  List.length (st_cpu_gpr stale_statics) = 32%nat /\
  List.length (st_cpu_fpr stale_statics) = 32%nat /\
  nth 0 (st_cpu_gpr stale_statics) None
  = Some (mk_tcg_global (field_gpr 0) "zero") /\
  nth 0 (st_cpu_gpr (riscv_tcg_init stale_statics)) None = None /\
  nth 0 (gpr rv64_env_gpr0_5) 0 = 5 /\
  readRegister (writeRegister rv64_env_gpr0_5 0 7) 0 = 0 /\
  (forall e',
     exec_ops (riscv_tcg_init stale_statics)
              [op_movi_tl (cpu_gpr 3) 7; op_movi_tl cpu_PC 4096;
               op_raise_exception_debug] rv64_env_gpr0_5 = Some e' ->
     nth 0 (gpr e') 0 = 5 /\ readRegister e' 0 = 0).
Proof.
  assert (Hpc : 0 <= tb_pc (tb_at 4096 0) < 2 ^ 64) by (cbn; lia).
  split; [exact rv64_target_ok|]. split; [exact Hpc|].
  split; [reflexivity|]. split; [reflexivity|]. split; [reflexivity|].
  split; [reflexivity|].
  destruct (C9_register_zero_hardwired 64 12 false 32767 32768 512
              buf_never_full 0 nop_memory mmu_index_of_priv
              (rv64_cpu 0 []) (tb_at 4096 0) stale_statics rv64_env_gpr0_5
              [op_movi_tl (cpu_gpr 3) 7; op_movi_tl cpu_PC 4096;
               op_raise_exception_debug]
              [(0%nat, 5); (3%nat, 7); (0%nat, 9)] 7
              rv64_target_ok Hpc eq_refl eq_refl eq_refl)
    as (Hunused & _ & _ & _ & _ & Hexec & _ & _ & _ & Hread & _).
  split; [exact Hunused|]. split; [reflexivity|]. split; [exact Hread|].
  exact Hexec.
Defined.

(** ** The further properties on the concrete target *)

Lemma rv64_range_8180 : 0 <= tb_pc (tb_at 8180 0) < 2 ^ 64.
Proof. cbn. lia. Defined.

Lemma rv64_range_4096 (cflags : Z) : 0 <= tb_pc (tb_at 4096 cflags) < 2 ^ 64.
Proof. cbn. lia. Defined.

(** Three instructions before the end of the page at 0x2000. *)
Lemma fetches_consecutive_and_breakpoint_free_witness :
  target_ok 64 12 /\ 0 <= tb_pc (tb_at 8180 0) < 2 ^ 64 /\
  exists r,
    rv64_gen_intermediate_code (rv64_cpu 0 []) (tb_at 8180 0) = Some r /\
    code_loads (res_state r)
    = map (fun k => 8180 + 4 * Z.of_nat k)
          (seq 0 (Z.to_nat (match res_exit r with
                            | Exit_goto_done_generating => tb_icount (res_tb r) - 1
                            | _ => tb_icount (res_tb r)
                            end))).
Proof.
  split; [exact rv64_target_ok|]. split; [exact rv64_range_8180|].
  destruct (fetches_consecutive_and_breakpoint_free 64 12 false 32767 32768
              512 buf_never_full 0 nop_memory mmu_index_of_priv
              (rv64_cpu 0 []) (tb_at 8180 0) rv64_target_ok rv64_range_8180)
    as (r & Hrun & Hloads & _).
  exists r. split; [exact Hrun|exact Hloads].
Defined.

Lemma insn_start_markers_witness :
  target_ok 64 12 /\ 0 <= tb_pc (tb_at 8180 0) < 2 ^ 64 /\
  exists r,
    rv64_gen_intermediate_code (rv64_cpu 0 [8184]) (tb_at 8180 0) = Some r /\
    insn_start_pcs (op_buf (res_state r))
    = map (fun k => 8180 + 4 * Z.of_nat k)
          (seq 0 (Z.to_nat (tb_icount (res_tb r)))).
Proof.
  split; [exact rv64_target_ok|]. split; [exact rv64_range_8180|].
  exact (insn_start_markers 64 12 false 32767 32768 512 buf_never_full 0
           nop_memory mmu_index_of_priv (rv64_cpu 0 [8184]) (tb_at 8180 0)
           rv64_target_ok rv64_range_8180).
Defined.

Lemma restored_pc_inside_block_witness :
  target_ok 64 12 /\ 0 <= tb_pc (tb_at 8180 0) < 2 ^ 64 /\
  exists r,
    rv64_gen_intermediate_code (rv64_cpu 0 []) (tb_at 8180 0) = Some r /\
    forall a rest, In a (insn_start_pcs (op_buf (res_state r))) ->
      exists e',
        restore_state_to_opc rv64_env (res_tb r) (a :: rest) = Some e' /\
        8180 <= PC e' < 8180 + tb_size (res_tb r).
Proof.
  split; [exact rv64_target_ok|]. split; [exact rv64_range_8180|].
  destruct (restored_pc_inside_block 64 12 false 32767 32768 512
              buf_never_full 0 nop_memory mmu_index_of_priv
              (rv64_cpu 0 []) (tb_at 8180 0) rv64_env
              rv64_target_ok rv64_range_8180) as (r & Hrun & Hres).
  exists r. split; [exact Hrun|]. intros a rest Ha.
  destruct (Hres a rest Ha) as (e' & He' & Hin & _).
  exists e'. split; [exact He'|exact Hin].
Defined.

(** A breakpoint on the second instruction of a block at 0x1000. *)
Lemma breakpoint_covered_by_block_witness :
  target_ok 64 12 /\ 0 <= tb_pc (tb_at 4096 0) < 2 ^ 64 /\
  exists r,
    rv64_gen_intermediate_code (rv64_cpu 0 [4100]) (tb_at 4096 0) = Some r /\
    (res_exit r = Exit_goto_done_generating ->
     debug_trap_target (op_buf (res_state r))
     = Some (4096 + tb_size (res_tb r) - 4)).
Proof.
  split; [exact rv64_target_ok|]. split; [exact (rv64_range_4096 0)|].
  destruct (breakpoint_covered_by_block 64 12 false 32767 32768 512
              buf_never_full 0 nop_memory mmu_index_of_priv
              (rv64_cpu 0 [4100]) (tb_at 4096 0)
              rv64_target_ok (rv64_range_4096 0)) as (r & Hrun & Hbp).
  exists r. split; [exact Hrun|]. intros Hexit.
  exact (proj1 (proj2 (Hbp Hexit))).
Defined.

Lemma singlestep_block_has_one_instruction_witness :
  target_ok 64 12 /\ 0 <= tb_pc (tb_at 4096 0) < 2 ^ 64 /\
  (cs_singlestep_enabled (parent_obj (rv64_cpu 1 [])) <> 0 \/ 0 <> 0) /\
  exists r,
    rv64_gen_intermediate_code (rv64_cpu 1 []) (tb_at 4096 0) = Some r /\
    tb_icount (res_tb r) = 1 /\ tb_size (res_tb r) = 4.
Proof.
  assert (Hss : cs_singlestep_enabled (parent_obj (rv64_cpu 1 [])) <> 0 \/ 0 <> 0)
    by (left; cbn; lia).
  split; [exact rv64_target_ok|]. split; [exact (rv64_range_4096 0)|].
  split; [exact Hss|].
  destruct (singlestep_block_has_one_instruction 64 12 false 32767 32768 512
              buf_never_full 0 nop_memory mmu_index_of_priv
              (rv64_cpu 1 []) (tb_at 4096 0)
              rv64_target_ok (rv64_range_4096 0) Hss)
    as (r & Hrun & Hic & Hsz & _).
  exists r. repeat split; assumption.
Defined.

(** A budget of three instructions requested in [cflags]. *)
Lemma budget_met_exactly_witness :
  target_ok 64 12 /\ 0 <= tb_pc (tb_at 4096 3) < 2 ^ 64 /\
  1 <= max_insns_of 32767 512 (tb_at 4096 3) /\
  cs_singlestep_enabled (parent_obj (rv64_cpu 0 [])) = 0 /\
  (forall ops, buf_never_full ops = false) /\
  (forall k, 0 <= k < max_insns_of 32767 512 (tb_at 4096 3) ->
             cpu_breakpoint_test (parent_obj (rv64_cpu 0 []))
                                 (tb_pc (tb_at 4096 3) + 4 * k) = false) /\
  tb_pc (tb_at 4096 3) + 4 * (max_insns_of 32767 512 (tb_at 4096 3) - 1)
  < next_page_start_of 64 12 (tb_pc (tb_at 4096 3)) /\
  exists r,
    rv64_gen_intermediate_code (rv64_cpu 0 []) (tb_at 4096 3) = Some r /\
    tb_icount (res_tb r) = 3 /\ tb_size (res_tb r) = 12.
Proof.
  assert (Hmax : 1 <= max_insns_of 32767 512 (tb_at 4096 3))
    by (vm_compute; discriminate).
  assert (Hfull : forall ops, buf_never_full ops = false)
    by (intros ops; reflexivity).
  assert (Hnobp : forall k, 0 <= k < max_insns_of 32767 512 (tb_at 4096 3) ->
                    cpu_breakpoint_test (parent_obj (rv64_cpu 0 []))
                                        (tb_pc (tb_at 4096 3) + 4 * k) = false)
    by (intros k Hk; reflexivity).
  assert (Hroom : tb_pc (tb_at 4096 3)
                  + 4 * (max_insns_of 32767 512 (tb_at 4096 3) - 1)
                  < next_page_start_of 64 12 (tb_pc (tb_at 4096 3)))
    by (vm_compute; reflexivity).
  split; [exact rv64_target_ok|]. split; [exact (rv64_range_4096 3)|].
  split; [exact Hmax|]. split; [reflexivity|]. split; [exact Hfull|].
  split; [exact Hnobp|]. split; [exact Hroom|].
  destruct (budget_met_exactly 64 12 false 32767 32768 512
              buf_never_full 0 nop_memory mmu_index_of_priv
              (rv64_cpu 0 []) (tb_at 4096 3)
              rv64_target_ok (rv64_range_4096 3) Hmax eq_refl eq_refl
              Hfull Hnobp Hroom)
    as (r & Hrun & Hic & Hsz & _).
  exists r. split; [exact Hrun|]. split; [exact Hic|exact Hsz].
Defined.

Lemma icount_within_budget_witness :
  target_ok 64 12 /\ 0 <= tb_pc (tb_at 4096 3) < 2 ^ 64 /\
  0 < 32767 /\ 0 < 512 /\
  exists r,
    rv64_gen_intermediate_code (rv64_cpu 0 []) (tb_at 4096 3) = Some r /\
    1 <= tb_icount (res_tb r) <= 512.
Proof.
  assert (Hcm : 0 < 32767) by lia. assert (Htm : 0 < 512) by lia.
  split; [exact rv64_target_ok|]. split; [exact (rv64_range_4096 3)|].
  split; [exact Hcm|]. split; [exact Htm|].
  destruct (icount_within_budget 64 12 false 32767 32768 512
              buf_never_full 0 nop_memory mmu_index_of_priv
              (rv64_cpu 0 []) (tb_at 4096 3)
              rv64_target_ok (rv64_range_4096 3) Hcm Htm)
    as (r & Hrun & Hic & _).
  exists r. split; [exact Hrun|exact Hic].
Defined.

Lemma block_span_bounds_witness :
  target_ok 64 12 /\ 0 <= tb_pc (tb_at 8180 0) < 2 ^ 64 /\
  exists r,
    rv64_gen_intermediate_code (rv64_cpu 0 []) (tb_at 8180 0) = Some r /\
    4 <= tb_size (res_tb r) <= 2 ^ 12 + 3 /\
    (8180 mod 4 = 0 -> 8180 + tb_size (res_tb r) <= page_end 12 8180).
Proof.
  split; [exact rv64_target_ok|]. split; [exact rv64_range_8180|].
  destruct (block_span_bounds 64 12 false 32767 32768 512
              buf_never_full 0 nop_memory mmu_index_of_priv
              (rv64_cpu 0 []) (tb_at 8180 0)
              rv64_target_ok rv64_range_8180)
    as (r & Hrun & Hsz & _ & Hal).
  exists r. split; [exact Hrun|]. split; [exact Hsz|exact Hal].
Defined.

Lemma pc_written_exactly_once_witness :
  target_ok 64 12 /\ 0 <= tb_pc (tb_at 8180 0) < 2 ^ 64 /\
  exists r,
    rv64_gen_intermediate_code (rv64_cpu 0 []) (tb_at 8180 0) = Some r /\
    filter is_pc_write (op_buf (res_state r))
    = [op_movi_tl cpu_PC
         (match res_exit r with
          | Exit_goto_done_generating => 8180 + tb_size (res_tb r) - 4
          | _ => target_ulong 64 (8180 + tb_size (res_tb r))
          end)].
Proof.
  split; [exact rv64_target_ok|]. split; [exact rv64_range_8180|].
  exact (pc_written_exactly_once 64 12 false 32767 32768 512
           buf_never_full 0 nop_memory mmu_index_of_priv
           (rv64_cpu 0 []) (tb_at 8180 0) rv64_target_ok rv64_range_8180).
Defined.

(** [CF_LAST_IO] set and a budget of three instructions. *)
Lemma io_markers_witness :
  target_ok 64 12 /\ 0 <= tb_pc (tb_at 4096 32771) < 2 ^ 64 /\
  1 <= max_insns_of 32767 512 (tb_at 4096 32771) /\
  exists r,
    rv64_gen_intermediate_code (rv64_cpu 0 []) (tb_at 4096 32771) = Some r /\
    filter is_io_op (op_buf (res_state r))
    = match res_exit r with
      | Exit_goto_done_generating => []
      | _ =>
        if Z.land (tb_cflags (tb_at 4096 32771)) 32768 =? 0 then []
        else if tb_icount (res_tb r) =? max_insns_of 32767 512 (tb_at 4096 32771)
             then [op_io_start; op_io_end]
             else [op_io_end]
      end.
Proof.
  assert (Hmax : 1 <= max_insns_of 32767 512 (tb_at 4096 32771))
    by (vm_compute; discriminate).
  split; [exact rv64_target_ok|]. split; [exact (rv64_range_4096 32771)|].
  split; [exact Hmax|].
  exact (io_markers 64 12 false 32767 32768 512
           buf_never_full 0 nop_memory mmu_index_of_priv
           (rv64_cpu 0 []) (tb_at 4096 32771)
           rv64_target_ok (rv64_range_4096 32771) Hmax).
Defined.

(** An explicit stop at 0x1004 in a block at 0x1000, debug mode off. *)
Lemma block_exit_chains_only_from_stop_witness :
  0 <= 12 /\
  exists ops,
    block_exit 12 false (mkCPUState 0 [])
               (mkCtx (tb_at 4096 0) 4100 19 0 3 BS_STOP) initial_state
    = (tt, mkGenState (op_buf initial_state ++ ops) (code_loads initial_state)) /\
    has_chained_exit ops = true.
Proof.
  assert (Hk : 0 <= 12) by lia. split; [exact Hk|].
  destruct (block_exit_chains_only_from_stop 12 false (mkCPUState 0 [])
              (mkCtx (tb_at 4096 0) 4100 19 0 3 BS_STOP) initial_state Hk)
    as (ops & Hrun & Hiff & _).
  exists ops. split; [exact Hrun|]. apply Hiff.
  split; [reflexivity|]. split; [reflexivity|]. split; [reflexivity|].
  right. reflexivity.
Defined.

Lemma kill_unknown_ends_block_witness :
  translate_loop 64 32768 buf_never_full 0 nop_memory 5
    (rv64_cpu 0 []) (tb_at 4096 0) 8192 512
    (fst (kill_unknown (mkCtx (tb_at 4096 0) 4100 19 0 3 BS_NONE) 2
                       initial_state)) 1
    (snd (kill_unknown (mkCtx (tb_at 4096 0) 4100 19 0 3 BS_NONE) 2
                       initial_state))
  = Some (Exit_condition,
          fst (kill_unknown (mkCtx (tb_at 4096 0) 4100 19 0 3 BS_NONE) 2
                            initial_state), 1,
          snd (kill_unknown (mkCtx (tb_at 4096 0) 4100 19 0 3 BS_NONE) 2
                            initial_state)).
Proof.
  exact (proj1 (proj2 (proj2
           (kill_unknown_ends_block 64 12 false 32768 buf_never_full 0
              nop_memory (rv64_cpu 0 []) (tb_at 4096 0) 8192 512
              (mkCtx (tb_at 4096 0) 4100 19 0 3 BS_NONE) 2 1
              initial_state 5%nat)))).
Defined.

Lemma lookup_returns_first_match_witness :
  find_by_name_from "Riscv" (riscv_defs 64 true) 0 = Some (0%nat,
    nth 0 (riscv_defs 64 true) (mk_riscv_def EmptyString 0)) /\
  lower_c_string "Riscv"
  = lower_c_string (def_name (nth 0 (riscv_defs 64 true)
                                  (mk_riscv_def EmptyString 0))).
Proof.
  split; [reflexivity|].
  exact (proj1 (proj2 (proj2 (lookup_returns_first_match "Riscv"
                                (riscv_defs 64 true)) _ _ eq_refl))).
Defined.

Lemma listed_models_can_be_selected_witness :
  In (nth 0 (riscv_defs 64 true) (mk_riscv_def EmptyString 0))
     (riscv_defs 64 true) /\
  cpu_riscv_init 64 true (rv64_cpu 0 []) (fun c => c) 3 3856 "riscv" <> None.
Proof.
  assert (Hin : In (nth 0 (riscv_defs 64 true) (mk_riscv_def EmptyString 0))
                   (riscv_defs 64 true)) by (left; reflexivity).
  split; [exact Hin|].
  exact (proj2 (proj2 (listed_models_can_be_selected 64 true (rv64_cpu 0 [])
                         (fun c => c) 3 3856) _ Hin)).
Defined.

Lemma cpu_riscv_init_state_witness :
  cpu_riscv_find_by_name 64 true "RISCV"
  = Some (0%nat, nth 0 (riscv_defs 64 true) (mk_riscv_def EmptyString 0)) /\
  (3856 < 4096)%nat /\
  exists cpu0,
    priv (env cpu0) = 3 /\
    nth 3856 (csr (env cpu0)) 0
    = init_misa_reg (nth 0 (riscv_defs 64 true) (mk_riscv_def EmptyString 0))
      mod 2 ^ 64 /\
    (forall k, k <> 3856%nat -> nth k (csr (env cpu0)) 0 = 0).
Proof.
  assert (Hm : (3856 < 4096)%nat) by lia.
  split; [reflexivity|]. split; [exact Hm|].
  destruct (cpu_riscv_init_state 64 true (rv64_cpu 0 []) (fun c => c) 3 3856
              "RISCV" 0%nat
              (nth 0 (riscv_defs 64 true) (mk_riscv_def EmptyString 0))
              eq_refl Hm)
    as (cpu0 & _ & _ & _ & Hpriv & _ & Hmisa & Hzero & _).
  exists cpu0. split; [exact Hpriv|]. split; [exact Hmisa|exact Hzero].
Defined.

Lemma riscv_tcg_init_bindings_witness :
  st_inited tcg_statics_init = 0 /\
  List.length (st_cpu_gpr tcg_statics_init) = 32%nat /\
  List.length (st_cpu_fpr tcg_statics_init) = 32%nat /\
  nth 2 (st_cpu_gpr (riscv_tcg_init tcg_statics_init)) None
  = Some (mk_tcg_global (field_gpr 2) (nth 2 regnames EmptyString)).
Proof.
  split; [reflexivity|]. split; [reflexivity|]. split; [reflexivity|].
  apply (riscv_tcg_init_bindings tcg_statics_init eq_refl eq_refl eq_refl).
  lia.
Defined.
